(** * Essential-container controller: detector and remedial actions

    Shallow embedding of the two variants of
    [internal/controller/pod_controller.go]: the event filter that detects
    the Running -> Terminated/Completed edge of the container named "main",
    the reconciler that deletes the pod, and the reconciler that injects an
    ephemeral container running [kill -INT 1]. *)

From Stdlib Require Import ZArith String Ascii Bool.
From stdpp Require Import base list strings numbers.

Local Open Scope string_scope.
Local Open Scope Z_scope.

(** ** The slice of [k8s.io/api/core/v1] the controller touches

    Go structs become records, pointer-typed optional members become
    [option], slices become lists, [int32] becomes [Z].  Members of the API
    types that the controller neither reads nor writes are left out, apart
    from a few kept to make the frame statements say something. *)

Record ContainerStateWaiting := {
  csw_Reason : string;
  csw_Message : string
}.

Record ContainerStateRunning := {
  csr_StartedAt : string
}.

Record ContainerStateTerminated := {
  cst_ExitCode : Z;
  cst_Signal : Z;
  cst_Reason : string;
  cst_Message : string;
  cst_StartedAt : string;
  cst_FinishedAt : string;
  cst_ContainerID : string
}.

(** [corev1.ContainerState]: three pointers, any of which may be nil.  The
    zero value [ContainerState{}] has all three nil. *)
Record ContainerState := {
  Waiting : option ContainerStateWaiting;
  Running : option ContainerStateRunning;
  Terminated : option ContainerStateTerminated
}.

Definition ContainerState_zero : ContainerState :=
  {| Waiting := None; Running := None; Terminated := None |}.

Record ContainerStatus := {
  cs_Name : string;
  cs_State : ContainerState;
  cs_LastTerminationState : ContainerState;
  cs_Ready : bool;
  cs_RestartCount : Z;
  cs_Image : string;
  cs_ContainerID : string
}.

Record Capabilities := {
  cap_Add : list string;
  cap_Drop : list string
}.

Record SecurityContext := {
  sc_Capabilities : option Capabilities;
  sc_Privileged : option bool
}.

Record ResourceRequirements := {
  rr_Limits : list (string * string);
  rr_Requests : list (string * string)
}.

Definition ResourceRequirements_zero : ResourceRequirements :=
  {| rr_Limits := []; rr_Requests := [] |}.

Record Container := {
  c_Name : string;
  c_Image : string;
  c_Command : list string;
  c_Args : list string
}.

Record EphemeralContainerCommon := {
  ecc_Name : string;
  ecc_Image : string;
  ecc_Command : list string;
  ecc_Args : list string;
  ecc_TTY : bool;
  ecc_Stdin : bool;
  ecc_Resources : ResourceRequirements;
  ecc_SecurityContext : option SecurityContext
}.

Record EphemeralContainer := {
  ec_Common : EphemeralContainerCommon;
  ec_TargetContainerName : string
}.

Record ObjectMeta := {
  om_Name : string;
  om_Namespace : string;
  om_Labels : list (string * string);
  om_ResourceVersion : string
}.

Record PodSpec := {
  InitContainers : list Container;
  Containers : list Container;
  EphemeralContainers : list EphemeralContainer;
  RestartPolicy : string;
  NodeName : string
}.

Record PodStatus := {
  Phase : string;
  InitContainerStatuses : list ContainerStatus;
  ContainerStatuses : list ContainerStatus;
  EphemeralContainerStatuses : list ContainerStatus
}.

Record Pod := {
  Meta : ObjectMeta;
  Spec : PodSpec;
  Status : PodStatus
}.

(** [corev1.Pod{}] *)
Definition Pod_zero : Pod :=
  {| Meta := {| om_Name := ""; om_Namespace := ""; om_Labels := [];
                om_ResourceVersion := "" |};
     Spec := {| InitContainers := []; Containers := [];
                EphemeralContainers := []; RestartPolicy := "";
                NodeName := "" |};
     Status := {| Phase := ""; InitContainerStatuses := [];
                  ContainerStatuses := [];
                  EphemeralContainerStatuses := [] |} |}.

(** ** Container-state extractor *)

(** [getContainerStatus]: the [for ... range] loop with its early [return],
    over the slice [pod.Status.ContainerStatuses]; falling off the end
    returns the zero [ContainerState]. *)
Fixpoint getContainerStatus_loop (statuses : list ContainerStatus)
    (containerName : string) : ContainerState :=
  match statuses with
  | [] => ContainerState_zero
  | status :: rest =>
      if (cs_Name status =? containerName)%string then cs_State status
      else getContainerStatus_loop rest containerName
  end.

Definition getContainerStatus (pod : Pod) (containerName : string)
    : ContainerState :=
  getContainerStatus_loop (ContainerStatuses (Status pod)) containerName.

(** Go's [p != nil] on a pointer-typed member. *)
Definition notNil {A : Type} (p : option A) : bool :=
  match p with
  | Some _ => true
  | None => false
  end.

Definition getState (state : ContainerState) : string :=
  if notNil (Running state) then "Running"
  else if notNil (Waiting state) then "Waiting"
  else if notNil (Terminated state) then "Terminated"
  else "unknown".

Definition getStateReason (state : ContainerState) : string :=
  if notNil (Running state) then ""
  else
    match Waiting state with
    | Some w => csw_Reason w
    | None =>
        match Terminated state with
        | Some t => cst_Reason t
        | None => ""
        end
    end.

(** ** Transition detector: the event filter *)

(** [event.UpdateEvent] after the two type assertions to [*corev1.Pod].
    The watch is set up [For(&corev1.Pod{})], so both objects are pods. *)
Record UpdateEvent := {
  ObjectOld : Pod;
  ObjectNew : Pod
}.

Definition UpdateFunc (e : UpdateEvent) : bool :=
  let oldPod := ObjectOld e in
  let newPod := ObjectNew e in
  let oldStatus := getState (getContainerStatus oldPod "main") in
  let newState := getContainerStatus newPod "main" in
  let newStatus := getState newState in
  let statusReason := getStateReason newState in
  ((oldStatus =? "Running")%string && (newStatus =? "Terminated")%string)
  && (statusReason =? "Completed")%string.

Definition CreateFunc (ce : Pod) : bool := false.

Definition DeleteFunc (de : Pod) : bool := false.

(** ** Snapshots that differ in exit codes only

    [scrub_pod] overwrites the [ExitCode] of every [Terminated] record of a
    pod (current and last state, in the three status lists) by 0.  Two pods
    agree up to exit codes when their scrubbed forms are equal. *)

Definition scrub_terminated (t : ContainerStateTerminated)
    : ContainerStateTerminated :=
  {| cst_ExitCode := 0;
     cst_Signal := cst_Signal t;
     cst_Reason := cst_Reason t;
     cst_Message := cst_Message t;
     cst_StartedAt := cst_StartedAt t;
     cst_FinishedAt := cst_FinishedAt t;
     cst_ContainerID := cst_ContainerID t |}.

Definition scrub_state (st : ContainerState) : ContainerState :=
  {| Waiting := Waiting st;
     Running := Running st;
     Terminated := option_map scrub_terminated (Terminated st) |}.

Definition scrub_status (cs : ContainerStatus) : ContainerStatus :=
  {| cs_Name := cs_Name cs;
     cs_State := scrub_state (cs_State cs);
     cs_LastTerminationState := scrub_state (cs_LastTerminationState cs);
     cs_Ready := cs_Ready cs;
     cs_RestartCount := cs_RestartCount cs;
     cs_Image := cs_Image cs;
     cs_ContainerID := cs_ContainerID cs |}.

Definition scrub_pod (p : Pod) : Pod :=
  {| Meta := Meta p;
     Spec := Spec p;
     Status :=
       {| Phase := Phase (Status p);
          InitContainerStatuses :=
            map scrub_status (InitContainerStatuses (Status p));
          ContainerStatuses :=
            map scrub_status (ContainerStatuses (Status p));
          EphemeralContainerStatuses :=
            map scrub_status (EphemeralContainerStatuses (Status p)) |} |}.

Definition same_up_to_exit_codes (p q : Pod) : Prop :=
  scrub_pod p = scrub_pod q.

(** ** Sample snapshots *)

Definition mkTerminated (reason : string) (code : Z) : ContainerState :=
  {| Waiting := None; Running := None;
     Terminated := Some {| cst_ExitCode := code; cst_Signal := 0;
                           cst_Reason := reason; cst_Message := "";
                           cst_StartedAt := "t0"; cst_FinishedAt := "t1";
                           cst_ContainerID := "cri://main" |} |}.

Definition mkRunning : ContainerState :=
  {| Waiting := None; Running := Some {| csr_StartedAt := "t0" |};
     Terminated := None |}.

Definition mkWaiting (reason : string) : ContainerState :=
  {| Waiting := Some {| csw_Reason := reason; csw_Message := "" |};
     Running := None; Terminated := None |}.

Definition mkStatus (name : string) (st : ContainerState) : ContainerStatus :=
  {| cs_Name := name; cs_State := st;
     cs_LastTerminationState := ContainerState_zero;
     cs_Ready := false; cs_RestartCount := 0;
     cs_Image := "img"; cs_ContainerID := "cri://" ++ name |}.

Definition mkPod (ns name : string) (ecs : list EphemeralContainer)
    (statuses : list ContainerStatus) : Pod :=
  {| Meta := {| om_Name := name; om_Namespace := ns;
                om_Labels := [("essential-containers", "main")];
                om_ResourceVersion := "1" |};
     Spec := {| InitContainers := [];
                Containers :=
                  [ {| c_Name := "main"; c_Image := "app";
                       c_Command := []; c_Args := [] |};
                    {| c_Name := "pool"; c_Image := "pgbouncer";
                       c_Command := []; c_Args := [] |} ];
                EphemeralContainers := ecs;
                RestartPolicy := "Never"; NodeName := "node-1" |};
     Status := {| Phase := "Running"; InitContainerStatuses := [];
                  ContainerStatuses := statuses;
                  EphemeralContainerStatuses := [] |} |}.

(** ** Runtime: requests, results, errors, log output

    The reconcilers talk to the cluster through [client.Client], serialize
    with [encoding/json], diff with [strategicpatch] and write to a logger
    and to standard output.  The libraries are an interface here
    ([Platform]); the reconcilers are written against it in a monad that
    threads the heap of pod objects, the state behind the client and the
    output produced so far. *)

Record NamespacedName := {
  nn_Namespace : string;
  nn_Name : string
}.

(** [types.NamespacedName.String] *)
Definition NamespacedName_String (n : NamespacedName) : string :=
  nn_Namespace n ++ "/" ++ nn_Name n.

(** [ctrl.Request] embeds the namespaced name. *)
Record Request := {
  req_NamespacedName : NamespacedName
}.

(** [ctrl.Result]; [ctrl.Result{}] is [Result_zero]. *)
Record Result := {
  Requeue : bool;
  RequeueAfter : Z
}.

Definition Result_zero : Result := {| Requeue := false; RequeueAfter := 0 |}.

(** [[]byte], as the string of its bytes; a nil slice is the empty one. *)
Definition bytes := string.

(** The libraries the controller calls.  Go functions returning
    [(value, error)] return a pair; [client.Client] methods act on the state
    [cluster] behind the client, which other actors may change between two
    calls.  [client_Get] and [subresource_Patch] answer with the object the
    server returned, which the client writes through the pointer it was
    given. *)
Class Platform := {
  cluster : Type;
  liberror : Type;
  Error : liberror -> string;
  IsNotFound : liberror -> bool;
  client_Get : NamespacedName -> cluster -> (Pod + liberror) * cluster;
  client_Delete : Pod -> cluster -> option liberror * cluster;
  subresource_Patch :
    string -> Pod -> string -> bytes -> cluster -> (Pod + liberror) * cluster;
  json_Marshal : Pod -> bytes * option liberror;
  CreateTwoWayMergePatch : bytes -> bytes -> Pod -> bytes * option liberror
}.

(** Values of Go's [error] that the reconcilers return: an error handed
    over by a library, or one made by [fmt.Errorf]. *)
Inductive error `{Platform} :=
  | LibError (e : liberror)
  | Errorf (msg : string).

Definition error_text `{Platform} (e : error) : string :=
  match e with
  | LibError e => Error e
  | Errorf msg => msg
  end.

(** [logr.Logger] with the key/value pairs bound by [WithValues]. *)
Record Logger := {
  keysAndValues : list (string * string)
}.

Definition WithValues (l : Logger) (k v : string) : Logger :=
  {| keysAndValues := (keysAndValues l ++ [(k, v)])%list |}.

Inductive Output :=
  | Stdout (text : string)
  | Info (kv : list (string * string)) (msg : string)
  | ErrorLine (kv : list (string * string)) (err : string) (msg : string).

(** [PodReconciler]: the embedded client and the scheme belong to the
    platform; the logger is the member the code reads. *)
Record PodReconciler := {
  Log : Logger
}.

(** [*corev1.Pod]: an index into the heap of pod objects. *)
Definition ptr := nat.

Record State `{Platform} := {
  heap : list Pod;
  world : cluster;
  output : list Output
}.

(** A computation either panics ([None]: a pointer that designates no
    object is dereferenced) or returns a value and the next state. *)
Definition M `{Platform} (A : Type) : Type := State -> option (A * State).

Definition ret `{Platform} {A : Type} (a : A) : M A :=
  fun s => Some (a, s).

Definition bind `{Platform} {A B : Type} (m : M A) (k : A -> M B) : M B :=
  fun s =>
    match m s with
    | Some (a, s') => k a s'
    | None => None
    end.

Notation "x <- m ;; k" := (bind m (fun x => k))
  (at level 100, m at next level, right associativity).
Notation "m ;; k" := (bind m (fun _ => k))
  (at level 100, right associativity).

Section Primitives.
Context `{Platform}.

(** [&corev1.Pod{}] and the allocation inside [DeepCopy]. *)
Definition alloc (v : Pod) : M ptr :=
  fun s =>
    Some (length (heap s),
          {| heap := (heap s ++ [v])%list;
             world := world s; output := output s |}).

Definition load (p : ptr) : M Pod :=
  fun s =>
    match heap s !! p with
    | Some v => Some (v, s)
    | None => None
    end.

Definition store (p : ptr) (v : Pod) : M unit :=
  fun s =>
    match heap s !! p with
    | Some _ =>
        Some (tt, {| heap := <[p := v]> (heap s);
                     world := world s; output := output s |})
    | None => None
    end.

Definition emit (o : Output) : M unit :=
  fun s =>
    Some (tt, {| heap := heap s; world := world s;
                 output := (output s ++ [o])%list |}).

Definition Printf (text : string) : M unit := emit (Stdout text).

Definition log_Info (log : Logger) (msg : string) : M unit :=
  emit (Info (keysAndValues log) msg).

Definition log_Error (log : Logger) (err : error) (msg : string) : M unit :=
  emit (ErrorLine (keysAndValues log) (error_text err) msg).

(** [pod.DeepCopy()]: a new object with the same content.  A pod value
    here shares nothing with another, so the content is copied as it
    is. *)
Definition DeepCopy (p : ptr) : M ptr :=
  v <- load p ;; alloc v.

(** [r.Get(ctx, key, pod)] *)
Definition r_Get (key : NamespacedName) (pod : ptr) : M (option liberror) :=
  fun s =>
    match client_Get key (world s) with
    | (inl obj, w) =>
        match store pod obj
                {| heap := heap s; world := w; output := output s |} with
        | Some (_, s') => Some (None, s')
        | None => None
        end
    | (inr err, w) =>
        Some (Some err,
              {| heap := heap s; world := w; output := output s |})
    end.

(** [r.Delete(ctx, pod)] *)
Definition r_Delete (pod : ptr) : M (option liberror) :=
  obj <- load pod ;;
  fun s =>
    let '(err, w) := client_Delete obj (world s) in
    Some (err, {| heap := heap s; world := w; output := output s |}).

(** [r.SubResource(name).Patch(ctx, pod, client.RawPatch(pt, data))] *)
Definition SubResource_Patch (name : string) (pod : ptr)
    (pt : string) (data : bytes) : M (option liberror) :=
  obj <- load pod ;;
  fun s =>
    match subresource_Patch name obj pt data (world s) with
    | (inl obj', w) =>
        match store pod obj'
                {| heap := heap s; world := w; output := output s |} with
        | Some (_, s') => Some (None, s')
        | None => None
        end
    | (inr err, w) =>
        Some (Some err,
              {| heap := heap s; world := w; output := output s |})
    end.
End Primitives.

(** [types.StrategicMergePatchType] *)
Definition StrategicMergePatchType : string :=
  "application/strategic-merge-patch+json".

Definition newline : string := String (ascii_of_nat 10) EmptyString.

(** What the caller of [Reconcile] does with the returned pair, after the
    contract of [reconcile.Reconciler]: a non-nil error puts the request
    back on the queue with backoff and the [Result] is ignored; with a nil
    error the request is queued again only if the [Result] asks for it.
    (The exception made for errors wrapping [reconcile.TerminalError] does
    not arise: the reconcilers never build one.) *)
Definition requeues `{Platform} (res : Result * option error) : bool :=
  match res with
  | (_, Some _) => true
  | (r, None) => (0 <? RequeueAfter r) || Requeue r
  end.

(** ** Pod removal: [Reconcile] of [internal/controller/pod_controller.go] *)

Module DeleteVariant.
Section Reconciler.
Context `{Platform}.

Definition Reconcile (r : PodReconciler) (req : Request)
    : M (Result * option error) :=
  let log :=
    WithValues (Log r) "pod" (NamespacedName_String (req_NamespacedName req)) in
  Printf (newline ++ "Essential container exited, deleting the pod "
            ++ nn_Name (req_NamespacedName req) ++ " in namespace "
            ++ nn_Namespace (req_NamespacedName req) ++ newline) ;;
  pod <- alloc Pod_zero ;;
  err <- r_Get (req_NamespacedName req) pod ;;
  match err with
  | Some err =>
      if IsNotFound err then
        log_Info log "Pod not found" ;;
        ret (Result_zero, None)
      else
        log_Error log (LibError err) "Failed to get Pod" ;;
        ret (Result_zero, Some (LibError err))
  | None =>
      err <- r_Delete pod ;;
      match err with
      | Some err =>
          log_Error log (LibError err) "Failed to delete Pod" ;;
          ret (Result_zero, Some (LibError err))
      | None =>
          log_Info log "Pod deleted successfully" ;;
          ret (Result_zero, None)
      end
  end.
End Reconciler.
End DeleteVariant.

(** ** Process-kill injection: the second variant of the controller *)

Module InjectVariant.

(** The literal [ec] at the head of [injectEphemeralContainer]. *)
Definition ec : EphemeralContainer :=
  {| ec_Common :=
       {| ecc_Name := "essential-container-sidecar";
          ecc_Image := "busybox";
          ecc_Command := ["/bin/sh"];
          ecc_Args := ["-c"; "kill -INT 1"];
          ecc_TTY := false;
          ecc_Stdin := false;
          ecc_Resources := ResourceRequirements_zero;
          ecc_SecurityContext :=
            Some {| sc_Capabilities :=
                      Some {| cap_Add := ["SYS_PTRACE"]; cap_Drop := [] |};
                    sc_Privileged := None |} |};
     ec_TargetContainerName := "" |}.

(** The assignment [x.Spec.EphemeralContainers = l] on the object [x]. *)
Definition set_EphemeralContainers (x : Pod) (l : list EphemeralContainer)
    : Pod :=
  {| Meta := Meta x;
     Spec := {| InitContainers := InitContainers (Spec x);
                Containers := Containers (Spec x);
                EphemeralContainers := l;
                RestartPolicy := RestartPolicy (Spec x);
                NodeName := NodeName (Spec x) |};
     Status := Status x |}.

(** The content that [copied] designates once [ec] has been appended, for
    an input object with content [p]. *)
Definition modified (p : Pod) : Pod :=
  set_EphemeralContainers p (EphemeralContainers (Spec p) ++ [ec])%list.

Section Reconciler.
Context `{Platform}.

(** [copied := pod.DeepCopy()] followed by
    [copied.Spec.EphemeralContainers =
       append(copied.Spec.EphemeralContainers, *ec)]. *)
Definition buildCopied (pod : ptr) : M ptr :=
  copied <- DeepCopy pod ;;
  c <- load copied ;;
  store copied
    (set_EphemeralContainers c (EphemeralContainers (Spec c) ++ [ec])%list) ;;
  ret copied.

Definition injectEphemeralContainer (r : PodReconciler) (pod : ptr)
    (log : Logger) : M (option error) :=
  p <- load pod ;;
  let podJS := fst (json_Marshal p) in
  copied <- buildCopied pod ;;
  c <- load copied ;;
  let '(debugJS, err) := json_Marshal c in
  match err with
  | Some err =>
      ret (Some (Errorf ("error creating JSON for debug container: "
                           ++ Error err)))
  | None =>
      p <- load pod ;;
      let '(patch, err) := CreateTwoWayMergePatch podJS debugJS p in
      match err with
      | Some err =>
          ret (Some (Errorf ("error creating patch to add debug container: "
                               ++ Error err)))
      | None =>
          err <- SubResource_Patch "ephemeralcontainers" pod
                   StrategicMergePatchType patch ;;
          match err with
          | Some err =>
              if IsNotFound err then
                p <- load pod ;;
                ret (Some (Errorf ("pod not found: "
                                     ++ om_Namespace (Meta p) ++ "/"
                                     ++ om_Name (Meta p))))
              else ret (Some (LibError err))
          | None =>
              log_Info log "Ephemeral container injected successfully" ;;
              ret None
          end
      end
  end.

Definition Reconcile (r : PodReconciler) (req : Request)
    : M (Result * option error) :=
  let log :=
    WithValues (Log r) "pod" (NamespacedName_String (req_NamespacedName req)) in
  Printf (newline
            ++ "Essential container exited, injecting process kill container in the pod "
            ++ nn_Name (req_NamespacedName req) ++ " in namespace "
            ++ nn_Namespace (req_NamespacedName req) ++ newline) ;;
  pod <- alloc Pod_zero ;;
  err <- r_Get (req_NamespacedName req) pod ;;
  match err with
  | Some err =>
      if IsNotFound err then
        log_Info log "Pod not found" ;;
        ret (Result_zero, None)
      else
        log_Error log (LibError err) "Failed to get Pod" ;;
        ret (Result_zero, Some (LibError err))
  | None =>
      err <- injectEphemeralContainer r pod log ;;
      match err with
      | Some err =>
          log_Error log err "Failed to inject ephemeral container into pod" ;;
          ret (Result_zero, Some err)
      | None =>
          log_Info log "Pod killed successfully" ;;
          ret (Result_zero, None)
      end
  end.
End Reconciler.
End InjectVariant.

(** ** A cluster for worked examples

    A platform small enough to run: the cluster is a list of pods; when
    [contended] is set, another actor deletes a pod right after this client
    has read it.  The serializer refuses the pods that [rejects] selects;
    the patch endpoint acknowledges a patch for a pod that is still there
    and answers with the stored object. *)

Inductive SampleError :=
  | ErrNotFound (what : string)
  | ErrConflict (what : string)
  | ErrEncoding (what : string).

Record SampleCluster := {
  objects : list Pod;
  contended : bool
}.

Definition key_of (p : Pod) : NamespacedName :=
  {| nn_Namespace := om_Namespace (Meta p); nn_Name := om_Name (Meta p) |}.

Definition has_key (k : NamespacedName) (p : Pod) : bool :=
  (om_Namespace (Meta p) =? nn_Namespace k)%string
  && (om_Name (Meta p) =? nn_Name k)%string.

Definition without (k : NamespacedName) (l : list Pod) : list Pod :=
  List.filter (fun p => negb (has_key k p)) l.

Definition sample_Error (e : SampleError) : string :=
  match e with
  | ErrNotFound what => "pods " ++ what ++ " not found"
  | ErrConflict what => "pods " ++ what ++ " has been modified"
  | ErrEncoding what => "json: unsupported value: " ++ what
  end.

Definition sample_IsNotFound (e : SampleError) : bool :=
  match e with
  | ErrNotFound _ => true
  | _ => false
  end.

Definition sample_Get (k : NamespacedName) (w : SampleCluster)
    : (Pod + SampleError) * SampleCluster :=
  match List.find (has_key k) (objects w) with
  | Some p =>
      (inl p,
       if contended w
       then {| objects := without k (objects w); contended := contended w |}
       else w)
  | None => (inr (ErrNotFound (nn_Name k)), w)
  end.

Definition sample_Delete (p : Pod) (w : SampleCluster)
    : option SampleError * SampleCluster :=
  if existsb (has_key (key_of p)) (objects w)
  then (None, {| objects := without (key_of p) (objects w);
                 contended := contended w |})
  else (Some (ErrNotFound (om_Name (Meta p))), w).

Definition sample_Patch (sub : string) (p : Pod) (pt : string) (data : bytes)
    (w : SampleCluster) : (Pod + SampleError) * SampleCluster :=
  match List.find (has_key (key_of p)) (objects w) with
  | Some q => (inl q, w)
  | None => (inr (ErrNotFound (om_Name (Meta p))), w)
  end.

Definition render (p : Pod) : bytes :=
  om_Namespace (Meta p) ++ "/" ++ om_Name (Meta p) ++ ":"
  ++ String.concat ","
       (map (fun c => ecc_Name (ec_Common c)) (EphemeralContainers (Spec p))).

Definition sample_Marshal (rejects : Pod -> bool) (p : Pod)
    : bytes * option SampleError :=
  if rejects p then ("", Some (ErrEncoding (om_Name (Meta p))))
  else (render p, None).

Definition sample_Diff (original modified : bytes) (dataStruct : Pod)
    : bytes * option SampleError :=
  (original ++ "=>" ++ modified, None).

Definition samplePlatform (rejects : Pod -> bool) : Platform :=
  {| cluster := SampleCluster;
     liberror := SampleError;
     Error := sample_Error;
     IsNotFound := sample_IsNotFound;
     client_Get := sample_Get;
     client_Delete := sample_Delete;
     subresource_Patch := sample_Patch;
     json_Marshal := sample_Marshal rejects;
     CreateTwoWayMergePatch := sample_Diff |}.

(** The unit [ns/app-1] of the scenarios: "main" has completed, the
    sidecar "pool" is still running. *)
Definition app1 : Pod :=
  mkPod "ns" "app-1" []
    [mkStatus "main" (mkTerminated "Completed" 0);
     mkStatus "pool" mkRunning].

Definition app1_request : Request :=
  {| req_NamespacedName := {| nn_Namespace := "ns"; nn_Name := "app-1" |} |}.

Definition reconciler : PodReconciler :=
  {| Log := {| keysAndValues := [] |} |}.

(** The sample platform with a serializer that refuses nothing. *)
Definition plain : Platform := samplePlatform (fun _ => false).

(** A serializer that refuses a pod whose metadata carries no name and
    accepts every other pod. *)
Definition rejects_unnamed (p : Pod) : bool :=
  (om_Name (Meta p) =? "")%string.

Definition picky : Platform := samplePlatform rejects_unnamed.

Definition sample_state (rejects : Pod -> bool) (pods : list Pod)
    (race : bool) : @State (samplePlatform rejects) :=
  @Build_State (samplePlatform rejects) []
    {| objects := pods; contended := race |} [].

(** ** The patch document and its application

    The controller hands the two serialized pods to
    [strategicpatch.CreateTwoWayMergePatch] and the resulting bytes to the
    API server, which applies them.  Neither function is part of the
    repository; the properties stated about the round trip need a model of
    both. *)

Module StrategicMerge.

#[global] Instance Capabilities_eq_dec : EqDecision Capabilities.
Proof. solve_decision. Defined.
#[global] Instance SecurityContext_eq_dec : EqDecision SecurityContext.
Proof. solve_decision. Defined.
#[global] Instance ResourceRequirements_eq_dec
  : EqDecision ResourceRequirements.
Proof. solve_decision. Defined.
#[global] Instance EphemeralContainerCommon_eq_dec
  : EqDecision EphemeralContainerCommon.
Proof. solve_decision. Defined.
#[global] Instance EphemeralContainer_eq_dec : EqDecision EphemeralContainer.
Proof. solve_decision. Defined.
#[global] Instance Container_eq_dec : EqDecision Container.
Proof. solve_decision. Defined.
#[global] Instance ObjectMeta_eq_dec : EqDecision ObjectMeta.
Proof. solve_decision. Defined.
#[global] Instance ContainerStateWaiting_eq_dec
  : EqDecision ContainerStateWaiting.
Proof. solve_decision. Defined.
#[global] Instance ContainerStateRunning_eq_dec
  : EqDecision ContainerStateRunning.
Proof. solve_decision. Defined.
#[global] Instance ContainerStateTerminated_eq_dec
  : EqDecision ContainerStateTerminated.
Proof. solve_decision. Defined.
#[global] Instance ContainerState_eq_dec : EqDecision ContainerState.
Proof. solve_decision. Defined.
#[global] Instance ContainerStatus_eq_dec : EqDecision ContainerStatus.
Proof. solve_decision. Defined.
#[global] Instance PodStatus_eq_dec : EqDecision PodStatus.
Proof. solve_decision. Defined.

(** The merge key of the ephemeral-container list. *)
Definition name_of (e : EphemeralContainer) : string :=
  ecc_Name (ec_Common e).

(** Modelled from the spec: the serialized representation of a unit, which
    [json.Marshal] (not in the repository) produces.  The representation is
    identified with the content it encodes: the members that are
    overwritten as a whole when they change, and the ephemeral-container
    list, which is merged. *)
Record Doc := {
  doc_Meta : ObjectMeta;
  doc_InitContainers : list Container;
  doc_Containers : list Container;
  doc_RestartPolicy : string;
  doc_NodeName : string;
  doc_Status : PodStatus;
  doc_EphemeralContainers : list EphemeralContainer
}.

Definition serialize (p : Pod) : Doc :=
  {| doc_Meta := Meta p;
     doc_InitContainers := InitContainers (Spec p);
     doc_Containers := Containers (Spec p);
     doc_RestartPolicy := RestartPolicy (Spec p);
     doc_NodeName := NodeName (Spec p);
     doc_Status := Status p;
     doc_EphemeralContainers := EphemeralContainers (Spec p) |}.

(** Modelled from the spec: the partial-update document, absent from the
    repository (spec 4.4, step 4: "scalar fields overwrite; the
    ephemeral-container list uses append/merge-by-name semantics so
    existing entries are preserved and only the new entry is added").  A
    member other than the list is present in the patch when it changed;
    the list part holds the entries to merge. *)
Record Patch := {
  set_Meta : option ObjectMeta;
  set_InitContainers : option (list Container);
  set_Containers : option (list Container);
  set_RestartPolicy : option string;
  set_NodeName : option string;
  set_Status : option PodStatus;
  merge_EphemeralContainers : list EphemeralContainer
}.

(** A changed member is carried by the patch, an unchanged one is not. *)
Definition changed {A : Type} `{EqDecision A} (before after : A) : option A :=
  if decide (before = after) then None else Some after.

(** Modelled from the spec: the diff of two representations, absent from
    the repository.  The list part holds the entries of [after] that
    [before] does not have.  (Entries that [after] drops do not arise: the
    modified copy only appends.) *)
Definition CreateTwoWayMergePatch (before after : Doc) : Patch :=
  {| set_Meta := changed (doc_Meta before) (doc_Meta after);
     set_InitContainers :=
       changed (doc_InitContainers before) (doc_InitContainers after);
     set_Containers := changed (doc_Containers before) (doc_Containers after);
     set_RestartPolicy :=
       changed (doc_RestartPolicy before) (doc_RestartPolicy after);
     set_NodeName := changed (doc_NodeName before) (doc_NodeName after);
     set_Status := changed (doc_Status before) (doc_Status after);
     merge_EphemeralContainers :=
       List.filter
         (fun e => negb (bool_decide (e ∈ doc_EphemeralContainers before)))
         (doc_EphemeralContainers after) |}.

(** Merge of one entry into a list by name: the first entry of that name is
    replaced where it stands; without one, the entry is appended. *)
Fixpoint merge_by_name (l : list EphemeralContainer) (e : EphemeralContainer)
    : list EphemeralContainer :=
  match l with
  | [] => [e]
  | x :: rest =>
      if (name_of x =? name_of e)%string then e :: rest
      else x :: merge_by_name rest e
  end.

(** Modelled from the spec: the application of a patch by the platform,
    absent from the repository.  Members present in the patch overwrite;
    the entries of the list part are merged by name, one after the
    other. *)
Definition apply_patch (patch : Patch) (d : Doc) : Doc :=
  {| doc_Meta := default (doc_Meta d) (set_Meta patch);
     doc_InitContainers :=
       default (doc_InitContainers d) (set_InitContainers patch);
     doc_Containers := default (doc_Containers d) (set_Containers patch);
     doc_RestartPolicy :=
       default (doc_RestartPolicy d) (set_RestartPolicy patch);
     doc_NodeName := default (doc_NodeName d) (set_NodeName patch);
     doc_Status := default (doc_Status d) (set_Status patch);
     doc_EphemeralContainers :=
       fold_left merge_by_name (merge_EphemeralContainers patch)
         (doc_EphemeralContainers d) |}.

(** The patch that [injectEphemeralContainer] computes for a pod with
    content [p]. *)
Definition patch_of (p : Pod) : Patch :=
  CreateTwoWayMergePatch (serialize p) (serialize (InjectVariant.modified p)).

(** A pod on which the helper has been injected before. *)
Definition app1_patched : Pod :=
  mkPod "ns" "app-1" [InjectVariant.ec]
    [mkStatus "main" (mkTerminated "Completed" 0);
     mkStatus "pool" mkRunning].

End StrategicMerge.

(** ** Notions used in the statements about the reconcilers *)

(** The line [Reconcile] of the removal variant prints first. *)
Definition delete_banner (req : Request) : string :=
  newline ++ "Essential container exited, deleting the pod "
    ++ nn_Name (req_NamespacedName req) ++ " in namespace "
    ++ nn_Namespace (req_NamespacedName req) ++ newline.

(** The line [Reconcile] of the injection variant prints first. *)
Definition inject_banner (req : Request) : string :=
  newline
    ++ "Essential container exited, injecting process kill container in the pod "
    ++ nn_Name (req_NamespacedName req) ++ " in namespace "
    ++ nn_Namespace (req_NamespacedName req) ++ newline.

(** The key/value pairs of the logger [Reconcile] works with. *)
Definition request_kv (r : PodReconciler) (req : Request)
    : list (string * string) :=
  keysAndValues
    (WithValues (Log r) "pod" (NamespacedName_String (req_NamespacedName req))).

(** A pod reduced to the status records named "main". *)
Definition main_only (p : Pod) : Pod :=
  {| Meta := Meta Pod_zero;
     Spec := Spec Pod_zero;
     Status :=
       {| Phase := "";
          InitContainerStatuses := [];
          ContainerStatuses :=
            List.filter (fun s => (cs_Name s =? "main")%string)
              (ContainerStatuses (Status p));
          EphemeralContainerStatuses := [] |} |}.

(** The number of ephemeral containers that carry the helper's name. *)
Definition helper_count (l : list EphemeralContainer) : nat :=
  length
    (List.filter
       (fun e => (ecc_Name (ec_Common e)
                  =? ecc_Name (ec_Common InjectVariant.ec))%string) l).

(** ** More sample platforms *)

(** A cluster out of reach: every call of the client fails with an error
    that is not a not-found error. *)
Definition offline : Platform :=
  {| cluster := unit;
     liberror := string;
     Error := fun e => e;
     IsNotFound := fun _ => false;
     client_Get := fun _ w => (inr "context deadline exceeded", w);
     client_Delete := fun _ w => (Some "context deadline exceeded", w);
     subresource_Patch :=
       fun _ _ _ _ w => (inr "context deadline exceeded", w);
     json_Marshal := fun p => (render p, None);
     CreateTwoWayMergePatch :=
       fun original modified _ => (original ++ "=>" ++ modified, None) |}.

(** The sample cluster with a patch endpoint that answers every patch
    with a conflict. *)
Definition conflicting : Platform :=
  {| cluster := SampleCluster;
     liberror := SampleError;
     Error := sample_Error;
     IsNotFound := sample_IsNotFound;
     client_Get := sample_Get;
     client_Delete := sample_Delete;
     subresource_Patch :=
       fun _ p _ _ w => (inr (ErrConflict (om_Name (Meta p))), w);
     json_Marshal := sample_Marshal (fun _ => false);
     CreateTwoWayMergePatch := sample_Diff |}.

(** The sample cluster with a serializer that refuses every pod. *)
Definition refusing : Platform := samplePlatform (fun _ => true).

(** ** Properties of the extractor and of the detector *)

Lemma getState_Running (st : ContainerState) :
  getState st = "Running" <-> Running st <> None.
Proof.
  unfold getState. destruct (Running st), (Waiting st), (Terminated st);
    simpl; split; intros H; try congruence; try discriminate.
Qed.

Lemma getState_Terminated (st : ContainerState) :
  getState st = "Terminated" <->
  Running st = None /\ Waiting st = None /\ Terminated st <> None.
Proof.
  unfold getState. destruct (Running st), (Waiting st), (Terminated st);
    simpl; (split; [intros H | intros (H1 & H2 & H3)]);
    try discriminate; try congruence; repeat split; congruence.
Qed.

Lemma getContainerStatus_loop_absent (l : list ContainerStatus) (n : string) :
  Forall (fun s => cs_Name s <> n) l ->
  getContainerStatus_loop l n = ContainerState_zero.
Proof.
  induction 1 as [|s l Hs _ IH]; simpl; [reflexivity|].
  destruct (String.eqb_spec (cs_Name s) n); [contradiction|exact IH].
Qed.

Lemma getContainerStatus_loop_app (l1 l2 : list ContainerStatus) (n : string) :
  Forall (fun s => cs_Name s <> n) l1 ->
  getContainerStatus_loop (l1 ++ l2) n = getContainerStatus_loop l2 n.
Proof.
  induction 1 as [|s l Hs _ IH]; simpl; [reflexivity|].
  destruct (String.eqb_spec (cs_Name s) n); [contradiction|exact IH].
Qed.

(** C1.  The event filter answers [true] exactly when the state extracted
    for "main" from the old pod is in phase Running, the one extracted from
    the new pod is in phase Terminated, and the reason stored in that
    Terminated record is "Completed". *)
Theorem UpdateFunc_true_iff (e : UpdateEvent) :
  UpdateFunc e = true <->
  getState (getContainerStatus (ObjectOld e) "main") = "Running" /\
  getState (getContainerStatus (ObjectNew e) "main") = "Terminated" /\
  exists t, Terminated (getContainerStatus (ObjectNew e) "main") = Some t /\
            cst_Reason t = "Completed".
Proof.
  unfold UpdateFunc; cbv zeta.
  rewrite !andb_true_iff, !String.eqb_eq.
  split.
  - intros [[Ho Hn] Hr]. split; [exact Ho|]. split; [exact Hn|].
    apply getState_Terminated in Hn as (Hrun & Hwait & Hterm).
    unfold getStateReason in Hr. rewrite Hrun, Hwait in Hr. simpl in Hr.
    destruct (Terminated _) as [t|]; [|congruence].
    exists t. split; [reflexivity|exact Hr].
  - intros (Ho & Hn & t & Ht & Hr). repeat split; try assumption.
    apply getState_Terminated in Hn as (Hrun & Hwait & _).
    unfold getStateReason. rewrite Hrun, Hwait, Ht. simpl. exact Hr.
Qed.

(** C6.  When no status record of the old pod is named "main", the event
    filter answers [false], whatever the new pod holds. *)
Theorem UpdateFunc_absent_in_old (e : UpdateEvent) :
  Forall (fun s => cs_Name s <> "main")
         (ContainerStatuses (Status (ObjectOld e))) ->
  UpdateFunc e = false.
Proof.
  intros H. unfold UpdateFunc; cbv zeta.
  unfold getContainerStatus at 1.
  rewrite (getContainerStatus_loop_absent _ _ H). reflexivity.
Qed.

Lemma UpdateFunc_absent_in_old_witness :
  UpdateFunc {| ObjectOld := mkPod "ns" "app-1" [] [mkStatus "pool" mkRunning];
                ObjectNew := mkPod "ns" "app-1" []
                               [mkStatus "main" (mkTerminated "Completed" 0);
                                mkStatus "pool" mkRunning] |} = false.
Proof.
  apply UpdateFunc_absent_in_old. simpl.
  repeat constructor. simpl. discriminate.
Defined.

(** C7.  When no status record carries the requested name, the extractor
    returns the zero state: all three members nil, phase "unknown" (none of
    "Running", "Waiting", "Terminated") and an empty reason. *)
Theorem getContainerStatus_absent (pod : Pod) (containerName : string) :
  Forall (fun s => cs_Name s <> containerName)
         (ContainerStatuses (Status pod)) ->
  getContainerStatus pod containerName = ContainerState_zero /\
  getState (getContainerStatus pod containerName) = "unknown" /\
  getState (getContainerStatus pod containerName) <> "Running" /\
  getState (getContainerStatus pod containerName) <> "Waiting" /\
  getState (getContainerStatus pod containerName) <> "Terminated" /\
  getStateReason (getContainerStatus pod containerName) = "".
Proof.
  intros H. unfold getContainerStatus.
  rewrite (getContainerStatus_loop_absent _ _ H).
  repeat split; discriminate.
Qed.

Lemma getContainerStatus_absent_witness :
  getContainerStatus Pod_zero "main" = ContainerState_zero /\
  getState (getContainerStatus Pod_zero "main") = "unknown" /\
  getState (getContainerStatus Pod_zero "main") <> "Running" /\
  getState (getContainerStatus Pod_zero "main") <> "Waiting" /\
  getState (getContainerStatus Pod_zero "main") <> "Terminated" /\
  getStateReason (getContainerStatus Pod_zero "main") = "".
Proof.
  apply getContainerStatus_absent. simpl. constructor.
Defined.

Lemma getContainerStatus_loop_scrub (l : list ContainerStatus) (n : string) :
  getContainerStatus_loop (map scrub_status l) n =
  scrub_state (getContainerStatus_loop l n).
Proof.
  induction l as [|s l IH]; simpl; [reflexivity|].
  destruct (cs_Name s =? n)%string; [reflexivity|exact IH].
Qed.

Lemma getState_scrub (st : ContainerState) :
  getState (scrub_state st) = getState st.
Proof.
  unfold getState, scrub_state; simpl.
  destruct (Running st), (Waiting st), (Terminated st); reflexivity.
Qed.

Lemma getStateReason_scrub (st : ContainerState) :
  getStateReason (scrub_state st) = getStateReason st.
Proof.
  unfold getStateReason, scrub_state; simpl.
  destruct (Running st), (Waiting st), (Terminated st); reflexivity.
Qed.

Lemma UpdateFunc_scrub (o n : Pod) :
  UpdateFunc {| ObjectOld := scrub_pod o; ObjectNew := scrub_pod n |} =
  UpdateFunc {| ObjectOld := o; ObjectNew := n |}.
Proof.
  unfold UpdateFunc, getContainerStatus; simpl.
  rewrite !getContainerStatus_loop_scrub, !getState_scrub,
    getStateReason_scrub.
  reflexivity.
Qed.

(** C9.  Two update events whose old pods agree up to exit codes and whose
    new pods agree up to exit codes get the same answer from the event
    filter: the exit code is never consulted. *)
Theorem UpdateFunc_ignores_exit_codes (old1 new1 old2 new2 : Pod) :
  same_up_to_exit_codes old1 old2 ->
  same_up_to_exit_codes new1 new2 ->
  UpdateFunc {| ObjectOld := old1; ObjectNew := new1 |} =
  UpdateFunc {| ObjectOld := old2; ObjectNew := new2 |}.
Proof.
  unfold same_up_to_exit_codes. intros Ho Hn.
  rewrite <- (UpdateFunc_scrub old1 new1), <- (UpdateFunc_scrub old2 new2).
  rewrite Ho, Hn. reflexivity.
Qed.

Lemma UpdateFunc_ignores_exit_codes_witness :
  UpdateFunc
    {| ObjectOld := mkPod "ns" "app-1" [] [mkStatus "main" mkRunning];
       ObjectNew := mkPod "ns" "app-1" []
                      [mkStatus "main" (mkTerminated "Completed" 0)] |} =
  UpdateFunc
    {| ObjectOld := mkPod "ns" "app-1" [] [mkStatus "main" mkRunning];
       ObjectNew := mkPod "ns" "app-1" []
                      [mkStatus "main" (mkTerminated "Completed" 137)] |}.
Proof.
  apply UpdateFunc_ignores_exit_codes; reflexivity.
Defined.

(** C10.  With several status records of the requested name, the extractor
    returns the state of the first one in list order: records before it
    carry other names, records after it are never looked at. *)
Theorem getContainerStatus_first_match (pod : Pod) (containerName : string)
    (before after : list ContainerStatus) (s : ContainerStatus) :
  ContainerStatuses (Status pod) = (before ++ s :: after)%list ->
  Forall (fun s' => cs_Name s' <> containerName) before ->
  cs_Name s = containerName ->
  getContainerStatus pod containerName = cs_State s.
Proof.
  intros Hl Hb Hs. unfold getContainerStatus. rewrite Hl.
  rewrite (getContainerStatus_loop_app _ _ _ Hb). simpl.
  rewrite Hs, String.eqb_refl. reflexivity.
Qed.

Lemma getContainerStatus_first_match_witness :
  getContainerStatus
    (mkPod "ns" "app-1" []
       [mkStatus "pool" mkRunning;
        mkStatus "main" mkRunning;
        mkStatus "main" (mkTerminated "Completed" 0)]) "main" = mkRunning.
Proof.
  apply (getContainerStatus_first_match _ "main"
           [mkStatus "pool" mkRunning] 
           [mkStatus "main" (mkTerminated "Completed" 0)]
           (mkStatus "main" mkRunning)).
  - reflexivity.
  - repeat constructor. simpl. discriminate.
  - reflexivity.
Defined.

(** ** Properties of the reconcilers *)

Lemma lookup_fresh (l : list Pod) (v : Pod) :
  (l ++ [v])%list !! length l = Some v.
Proof. apply list_lookup_middle. reflexivity. Qed.

Lemma insert_fresh (l : list Pod) (v v' : Pod) :
  <[length l := v']> (l ++ [v])%list = (l ++ [v'])%list.
Proof. induction l as [|x l IH]; simpl; [reflexivity|]. now rewrite IH. Qed.

Lemma lookup_old (l : list Pod) (v : Pod) (p : ptr) (x : Pod) :
  l !! p = Some x -> (l ++ [v])%list !! p = Some x.
Proof. intros Hx. apply lookup_app_l_Some. exact Hx. Qed.

Ltac run :=
  unfold Printf, log_Info, log_Error, DeepCopy, r_Get, r_Delete,
    SubResource_Patch;
  unfold bind, ret, alloc, load, store, emit;
  cbn [heap world output fst snd].

Section DeleteProperties.
Context `{Platform}.
Import DeleteVariant.

(** C2 (amended).  [Reconcile] of the removal variant returns success when
    the initial read answers with an error that [IsNotFound] recognizes (no
    delete is attempted), and when the delete call succeeds; when the
    delete call answers with an error, a not-found one included, it returns
    that error. *)
Theorem Reconcile_delete_outcomes (r : PodReconciler) (req : Request)
    (s : State) :
  (forall e w1,
      client_Get (req_NamespacedName req) (world s) = (inr e, w1) ->
      IsNotFound e = true ->
      exists s', Reconcile r req s = Some ((Result_zero, None), s')
                 /\ world s' = w1) /\
  (forall obj w1 e w2,
      client_Get (req_NamespacedName req) (world s) = (inl obj, w1) ->
      client_Delete obj w1 = (Some e, w2) ->
      exists s', Reconcile r req s
                 = Some ((Result_zero, Some (LibError e)), s')
                 /\ world s' = w2
                 /\ requeues (Result_zero, Some (LibError e)) = true) /\
  (forall obj w1 w2,
      client_Get (req_NamespacedName req) (world s) = (inl obj, w1) ->
      client_Delete obj w1 = (None, w2) ->
      exists s', Reconcile r req s = Some ((Result_zero, None), s')
                 /\ world s' = w2).
Proof.
  repeat split.
  - intros e w1 Hget Hnf. unfold Reconcile. run. rewrite Hget.
    rewrite Hnf. run. eexists. split; reflexivity.
  - intros obj w1 e w2 Hget Hdel. unfold Reconcile. run. rewrite Hget.
    rewrite lookup_fresh, insert_fresh. cbn [heap world output].
    rewrite lookup_fresh. cbn [heap world output]. rewrite Hdel. run.
    eexists. repeat split; reflexivity.
  - intros obj w1 w2 Hget Hdel. unfold Reconcile. run. rewrite Hget.
    rewrite lookup_fresh, insert_fresh. cbn [heap world output].
    rewrite lookup_fresh. cbn [heap world output]. rewrite Hdel. run.
    eexists. split; reflexivity.
Qed.
End DeleteProperties.

Section InjectProperties.
Context `{Platform}.
Import InjectVariant.

Lemma buildCopied_run (pod : ptr) (s : State) (p : Pod) :
  heap s !! pod = Some p ->
  buildCopied pod s =
  Some (length (heap s),
        {| heap := (heap s ++ [modified p])%list;
           world := world s; output := output s |}).
Proof.
  intros Hp. unfold buildCopied. run. rewrite Hp.
  cbn [heap world output]. rewrite lookup_fresh.
  cbn [heap world output]. rewrite lookup_fresh.
  cbn [heap world output]. rewrite insert_fresh. reflexivity.
Qed.

(** C4.  Run on a heap where [pod] designates an object with content [p],
    the construction of the modified copy returns a new pointer, leaves
    every existing object (the input among them), the cluster and the
    output as they were, and the new object equals [p] in every member
    except that [ec] is appended to [Spec.EphemeralContainers]; [ec] is
    named "essential-container-sidecar" and runs [/bin/sh -c "kill -INT 1"]. *)
Theorem buildCopied_appends_helper (pod : ptr) (s : State) (p : Pod) :
  heap s !! pod = Some p ->
  exists copied s' c,
    buildCopied pod s = Some (copied, s') /\
    copied <> pod /\
    heap s' !! pod = Some p /\
    (forall q x, heap s !! q = Some x -> heap s' !! q = Some x) /\
    world s' = world s /\ output s' = output s /\
    heap s' !! copied = Some c /\
    length (heap s') = S (length (heap s)) /\
    Meta c = Meta p /\ Status c = Status p /\
    InitContainers (Spec c) = InitContainers (Spec p) /\
    Containers (Spec c) = Containers (Spec p) /\
    RestartPolicy (Spec c) = RestartPolicy (Spec p) /\
    NodeName (Spec c) = NodeName (Spec p) /\
    EphemeralContainers (Spec c)
      = (EphemeralContainers (Spec p) ++ [ec])%list /\
    length (EphemeralContainers (Spec c))
      = S (length (EphemeralContainers (Spec p))) /\
    (forall i x, EphemeralContainers (Spec p) !! i = Some x ->
                 EphemeralContainers (Spec c) !! i = Some x) /\
    list.last (EphemeralContainers (Spec c)) = Some ec /\
    ecc_Name (ec_Common ec) = "essential-container-sidecar" /\
    (ecc_Command (ec_Common ec) ++ ecc_Args (ec_Common ec))%list
      = ["/bin/sh"; "-c"; "kill -INT 1"].
Proof.
  intros Hp.
  exists (length (heap s)),
    {| heap := (heap s ++ [modified p])%list;
       world := world s; output := output s |},
    (modified p).
  split; [exact (buildCopied_run pod s p Hp)|].
  cbn [heap world output].
  split.
  { apply lookup_lt_Some in Hp. lia. }
  split; [exact (lookup_old _ _ _ _ Hp)|].
  split; [intros q x Hq; exact (lookup_old _ _ _ _ Hq)|].
  split; [reflexivity|]. split; [reflexivity|].
  split; [apply lookup_fresh|].
  split; [rewrite length_app; simpl; lia|].
  unfold modified, set_EphemeralContainers; cbn.
  repeat (split; [reflexivity|]).
  split; [rewrite length_app; simpl; lia|].
  split; [intros i x Hi; apply lookup_app_l_Some; exact Hi|].
  split; [apply last_snoc|].
  split; reflexivity.
Qed.

Ltac heap_step Hp :=
  repeat (progress
            (cbn [heap world output fst snd];
             rewrite ?Hp, ?lookup_fresh, ?insert_fresh,
               ?(lookup_old _ _ _ _ Hp))).

Lemma inject_marshal_copy_fails (r : PodReconciler) (pod : ptr)
    (log : Logger) (s : State) (p : Pod) (debugJS : bytes) (e : liberror) :
  heap s !! pod = Some p ->
  json_Marshal (modified p) = (debugJS, Some e) ->
  injectEphemeralContainer r pod log s =
  Some (Some (Errorf ("error creating JSON for debug container: "
                        ++ Error e)),
        {| heap := (heap s ++ [modified p])%list;
           world := world s; output := output s |}).
Proof.
  intros Hp Hm. unfold injectEphemeralContainer.
  unfold bind at 1. unfold load at 1. rewrite Hp.
  unfold bind at 1. rewrite (buildCopied_run pod s p Hp).
  run. heap_step Hp. fold (modified p). rewrite Hm. reflexivity.
Qed.

Lemma inject_diff_fails (r : PodReconciler) (pod : ptr)
    (log : Logger) (s : State) (p : Pod) (debugJS patch : bytes)
    (e : liberror) :
  heap s !! pod = Some p ->
  json_Marshal (modified p) = (debugJS, None) ->
  CreateTwoWayMergePatch (fst (json_Marshal p)) debugJS p = (patch, Some e) ->
  injectEphemeralContainer r pod log s =
  Some (Some (Errorf ("error creating patch to add debug container: "
                        ++ Error e)),
        {| heap := (heap s ++ [modified p])%list;
           world := world s; output := output s |}).
Proof.
  intros Hp Hm Hd. unfold injectEphemeralContainer.
  unfold bind at 1. unfold load at 1. rewrite Hp.
  unfold bind at 1. rewrite (buildCopied_run pod s p Hp).
  run. heap_step Hp. fold (modified p). rewrite Hm.
  heap_step Hp. rewrite Hd. reflexivity.
Qed.

Lemma inject_patch_fails (r : PodReconciler) (pod : ptr)
    (log : Logger) (s : State) (p : Pod) (debugJS patch : bytes)
    (e : liberror) (w : cluster) :
  heap s !! pod = Some p ->
  json_Marshal (modified p) = (debugJS, None) ->
  CreateTwoWayMergePatch (fst (json_Marshal p)) debugJS p = (patch, None) ->
  subresource_Patch "ephemeralcontainers" p StrategicMergePatchType patch
    (world s) = (inr e, w) ->
  injectEphemeralContainer r pod log s =
  Some (Some (if IsNotFound e
              then Errorf ("pod not found: " ++ om_Namespace (Meta p)
                             ++ "/" ++ om_Name (Meta p))
              else LibError e),
        {| heap := (heap s ++ [modified p])%list;
           world := w; output := output s |}).
Proof.
  intros Hp Hm Hd Hpatch. unfold injectEphemeralContainer.
  unfold bind at 1. unfold load at 1. rewrite Hp.
  unfold bind at 1. rewrite (buildCopied_run pod s p Hp).
  run. heap_step Hp. fold (modified p). rewrite Hm.
  heap_step Hp. rewrite Hd. heap_step Hp. rewrite Hpatch.
  destruct (IsNotFound e); heap_step Hp; reflexivity.
Qed.

Lemma inject_patch_accepted (r : PodReconciler) (pod : ptr)
    (log : Logger) (s : State) (p : Pod) (debugJS patch : bytes)
    (obj : Pod) (w : cluster) :
  heap s !! pod = Some p ->
  json_Marshal (modified p) = (debugJS, None) ->
  CreateTwoWayMergePatch (fst (json_Marshal p)) debugJS p = (patch, None) ->
  subresource_Patch "ephemeralcontainers" p StrategicMergePatchType patch
    (world s) = (inl obj, w) ->
  injectEphemeralContainer r pod log s =
  Some (None,
        {| heap := <[pod := obj]> (heap s ++ [modified p])%list;
           world := w;
           output := (output s ++
                      [Info (keysAndValues log)
                         "Ephemeral container injected successfully"])%list |}).
Proof.
  intros Hp Hm Hd Hpatch. unfold injectEphemeralContainer.
  unfold bind at 1. unfold load at 1. rewrite Hp.
  unfold bind at 1. rewrite (buildCopied_run pod s p Hp).
  run. heap_step Hp. fold (modified p). rewrite Hm.
  heap_step Hp. rewrite Hd. heap_step Hp. rewrite Hpatch.
  heap_step Hp. reflexivity.
Qed.

Lemma Reconcile_inject_after_Get (r : PodReconciler) (req : Request)
    (s : State) (obj : Pod) (w1 : cluster) (res : option error)
    (s2 : State) :
  client_Get (req_NamespacedName req) (world s) = (inl obj, w1) ->
  injectEphemeralContainer r (length (heap s))
    (WithValues (Log r) "pod" (NamespacedName_String (req_NamespacedName req)))
    {| heap := (heap s ++ [obj])%list; world := w1;
       output := (output s ++
                  [Stdout (newline
                     ++ "Essential container exited, injecting process kill container in the pod "
                     ++ nn_Name (req_NamespacedName req) ++ " in namespace "
                     ++ nn_Namespace (req_NamespacedName req)
                     ++ newline)])%list |}
  = Some (res, s2) ->
  Reconcile r req s =
  match res with
  | Some err =>
      Some ((Result_zero, Some err),
            {| heap := heap s2; world := world s2;
               output := (output s2 ++
                          [ErrorLine
                             (keysAndValues
                                (WithValues (Log r) "pod"
                                   (NamespacedName_String
                                      (req_NamespacedName req))))
                             (error_text err)
                             "Failed to inject ephemeral container into pod"])%list |})
  | None =>
      Some ((Result_zero, None),
            {| heap := heap s2; world := world s2;
               output := (output s2 ++
                          [Info
                             (keysAndValues
                                (WithValues (Log r) "pod"
                                   (NamespacedName_String
                                      (req_NamespacedName req))))
                             "Pod killed successfully"])%list |})
  end.
Proof.
  intros Hget Hinj. unfold Reconcile. run. rewrite Hget.
  rewrite lookup_fresh, insert_fresh. cbn [heap world output].
  rewrite Hinj. destruct res; reflexivity.
Qed.

(** A request for a pod that the read does not find ends in success, with
    no injection attempted. *)
Lemma Reconcile_inject_read_NotFound (r : PodReconciler) (req : Request)
    (s : State) (e : liberror) (w1 : cluster) :
  client_Get (req_NamespacedName req) (world s) = (inr e, w1) ->
  IsNotFound e = true ->
  exists s', Reconcile r req s = Some ((Result_zero, None), s')
             /\ world s' = w1
             /\ requeues (Result_zero, @None error) = false.
Proof.
  intros Hget Hnf. unfold Reconcile. run. rewrite Hget, Hnf. run.
  eexists. repeat split; reflexivity.
Qed.

(** C3 (amended).  When the read succeeded, the copy serialized and the
    diff was computed, and the submission of the patch fails with an error
    that [IsNotFound] recognizes, [Reconcile] returns an error of its own
    making, "pod not found: <namespace>/<name>", instead of the library's
    error; it logs it as a failed injection and, the error being non-nil,
    its caller queues the request again. *)
Theorem Reconcile_inject_patch_NotFound (r : PodReconciler) (req : Request)
    (s : State) (obj : Pod) (w1 w2 : cluster) (debugJS patch : bytes)
    (e : liberror) :
  client_Get (req_NamespacedName req) (world s) = (inl obj, w1) ->
  json_Marshal (modified obj) = (debugJS, None) ->
  CreateTwoWayMergePatch (fst (json_Marshal obj)) debugJS obj
    = (patch, None) ->
  subresource_Patch "ephemeralcontainers" obj StrategicMergePatchType patch w1
    = (inr e, w2) ->
  IsNotFound e = true ->
  exists s',
    Reconcile r req s =
    Some ((Result_zero,
           Some (Errorf ("pod not found: " ++ om_Namespace (Meta obj)
                           ++ "/" ++ om_Name (Meta obj)))), s') /\
    Errorf ("pod not found: " ++ om_Namespace (Meta obj)
              ++ "/" ++ om_Name (Meta obj)) <> LibError e /\
    world s' = w2 /\
    list.last (output s') =
    Some (ErrorLine
            (keysAndValues
               (WithValues (Log r) "pod"
                  (NamespacedName_String (req_NamespacedName req))))
            ("pod not found: " ++ om_Namespace (Meta obj)
               ++ "/" ++ om_Name (Meta obj))
            "Failed to inject ephemeral container into pod") /\
    requeues (Result_zero,
              Some (Errorf ("pod not found: " ++ om_Namespace (Meta obj)
                              ++ "/" ++ om_Name (Meta obj)))) = true.
Proof.
  intros Hget Hm Hd Hpatch Hnf.
  eexists. split.
  - erewrite Reconcile_inject_after_Get; [|exact Hget|].
    2:{ eapply inject_patch_fails; cbn [heap world output];
          [apply lookup_fresh|exact Hm|exact Hd|exact Hpatch]. }
    rewrite Hnf. reflexivity.
  - cbn [heap world output].
    split; [discriminate|]. split; [reflexivity|].
    split; [apply last_snoc|reflexivity].
Qed.

(** Whatever the first serialization answered, a failure of the second
    one, that of the modified copy, is returned by [Reconcile]. *)
Lemma Reconcile_inject_marshal_copy_fails (r : PodReconciler) (req : Request)
    (s : State) (obj : Pod) (w1 : cluster) (debugJS : bytes) (e : liberror) :
  client_Get (req_NamespacedName req) (world s) = (inl obj, w1) ->
  json_Marshal (modified obj) = (debugJS, Some e) ->
  exists s',
    Reconcile r req s =
    Some ((Result_zero,
           Some (Errorf ("error creating JSON for debug container: "
                           ++ Error e))), s') /\
    world s' = w1.
Proof.
  intros Hget Hm. eexists. split.
  - erewrite Reconcile_inject_after_Get; [|exact Hget|].
    2:{ eapply inject_marshal_copy_fails; cbn [heap world output];
          [apply lookup_fresh|exact Hm]. }
    reflexivity.
  - reflexivity.
Qed.

(** With a serializer whose failure on a pod carries over to the pod with
    one more ephemeral container, a failure of the first serialization is
    reported by the check of the second. *)
Lemma inject_first_marshal_failure_seen_by_second (r : PodReconciler)
    (pod : ptr) (log : Logger) (s : State) (p : Pod) :
  (forall q, snd (json_Marshal q) <> None ->
             snd (json_Marshal (modified q)) <> None) ->
  heap s !! pod = Some p ->
  snd (json_Marshal p) <> None ->
  exists e s',
    injectEphemeralContainer r pod log s =
    Some (Some (Errorf ("error creating JSON for debug container: "
                          ++ Error e)), s') /\
    snd (json_Marshal (modified p)) = Some e /\
    world s' = world s.
Proof.
  intros Hmono Hp Hfail. specialize (Hmono p Hfail).
  destruct (json_Marshal (modified p)) as [debugJS [e|]] eqn:Hm;
    [|contradiction].
  exists e. eexists. split.
  - eapply inject_marshal_copy_fails; eassumption.
  - split; reflexivity.
Qed.
End InjectProperties.

(** *** The reconcilers on the sample cluster *)

Lemma Reconcile_delete_outcomes_witness :
  (exists s',
      @DeleteVariant.Reconcile plain
        reconciler app1_request (sample_state (fun _ => false) [] false)
      = Some ((Result_zero, None), s')
      /\ world s' = {| objects := []; contended := false |}) /\
  (exists s',
      @DeleteVariant.Reconcile plain
        reconciler app1_request (sample_state (fun _ => false) [app1] true)
      = Some ((Result_zero, Some (@LibError plain (ErrNotFound "app-1"))), s')
      /\ world s' = {| objects := []; contended := true |}
      /\ @requeues plain
           (Result_zero, Some (@LibError plain (ErrNotFound "app-1")))
         = true) /\
  (exists s',
      @DeleteVariant.Reconcile plain
        reconciler app1_request (sample_state (fun _ => false) [app1] false)
      = Some ((Result_zero, None), s')
      /\ world s' = {| objects := []; contended := false |}).
Proof.
  split; [|split].
  - apply (proj1 (@Reconcile_delete_outcomes plain
                    reconciler app1_request (sample_state (fun _ => false) [] false))
             (ErrNotFound "app-1")); reflexivity.
  - apply (proj1 (proj2
                    (@Reconcile_delete_outcomes
                       plain
                       reconciler app1_request (sample_state (fun _ => false) [app1] true)))
             app1 {| objects := []; contended := true |});
      reflexivity.
  - apply (proj2 (proj2
                    (@Reconcile_delete_outcomes
                       plain
                       reconciler app1_request (sample_state (fun _ => false) [app1] false)))
             app1 {| objects := [app1]; contended := false |});
      reflexivity.
Defined.

(** C2, as stated, fails: the pod is read, another actor deletes it, the
    delete call answers with a not-found error, and [Reconcile] returns
    that error, which sends the request back to the queue. *)
Lemma Reconcile_delete_NotFound_on_delete_is_error :
  @client_Get plain
    (req_NamespacedName app1_request) {| objects := [app1]; contended := true |}
  = (inl app1, {| objects := []; contended := true |}) /\
  @client_Delete plain app1
    {| objects := []; contended := true |}
  = (Some (ErrNotFound "app-1"), {| objects := []; contended := true |}) /\
  @IsNotFound plain (ErrNotFound "app-1") = true /\
  option_map fst
    (@DeleteVariant.Reconcile plain
       reconciler app1_request (sample_state (fun _ => false) [app1] true))
  = Some (Result_zero, Some (@LibError plain (ErrNotFound "app-1"))) /\
  @requeues plain
    (Result_zero, Some (@LibError plain (ErrNotFound "app-1"))) = true.
Proof. repeat split. Qed.

Lemma Reconcile_inject_patch_NotFound_witness :
  exists s',
    @InjectVariant.Reconcile plain reconciler app1_request
      (sample_state (fun _ => false) [app1] true) =
    Some ((Result_zero, Some (@Errorf plain "pod not found: ns/app-1")), s') /\
    @Errorf plain "pod not found: ns/app-1"
      <> @LibError plain (ErrNotFound "app-1") /\
    world s' = {| objects := []; contended := true |} /\
    list.last (output s') =
    Some (ErrorLine [("pod", "ns/app-1")] "pod not found: ns/app-1"
            "Failed to inject ephemeral container into pod") /\
    @requeues plain
      (Result_zero, Some (@Errorf plain "pod not found: ns/app-1")) = true.
Proof.
  apply (@Reconcile_inject_patch_NotFound plain reconciler app1_request
           (sample_state (fun _ => false) [app1] true) app1
           {| objects := []; contended := true |}
           {| objects := []; contended := true |}
           "ns/app-1:essential-container-sidecar"
           "ns/app-1:=>ns/app-1:essential-container-sidecar"
           (ErrNotFound "app-1")); reflexivity.
Defined.

(** C3, as stated, fails: the patch is submitted for a pod that another
    actor has just deleted, the submission answers not-found, and
    [Reconcile] returns a non-nil error, on which its caller queues the
    request again. *)
Lemma Reconcile_inject_NotFound_is_requeued :
  @subresource_Patch plain "ephemeralcontainers" app1 StrategicMergePatchType
    "ns/app-1:=>ns/app-1:essential-container-sidecar"
    {| objects := []; contended := true |}
  = (inr (ErrNotFound "app-1"), {| objects := []; contended := true |}) /\
  @IsNotFound plain (ErrNotFound "app-1") = true /\
  option_map fst
    (@InjectVariant.Reconcile plain reconciler app1_request
       (sample_state (fun _ => false) [app1] true))
  = Some (Result_zero, Some (@Errorf plain "pod not found: ns/app-1")) /\
  @requeues plain
    (Result_zero, Some (@Errorf plain "pod not found: ns/app-1")) = true.
Proof. repeat split. Qed.

Lemma buildCopied_appends_helper_witness :
  exists copied s' c,
    @InjectVariant.buildCopied plain 0%nat
      (@Build_State plain [app1] {| objects := [app1]; contended := false |} [])
    = Some (copied, s') /\
    copied <> 0%nat /\
    heap s' !! 0%nat = Some app1 /\
    (forall q x, [app1] !! q = Some x -> heap s' !! q = Some x) /\
    world s' = {| objects := [app1]; contended := false |} /\
    output s' = [] /\
    heap s' !! copied = Some c /\
    length (heap s') = 2%nat /\
    Meta c = Meta app1 /\ Status c = Status app1 /\
    InitContainers (Spec c) = InitContainers (Spec app1) /\
    Containers (Spec c) = Containers (Spec app1) /\
    RestartPolicy (Spec c) = RestartPolicy (Spec app1) /\
    NodeName (Spec c) = NodeName (Spec app1) /\
    EphemeralContainers (Spec c) = [InjectVariant.ec] /\
    length (EphemeralContainers (Spec c)) = 1%nat /\
    (forall i x, EphemeralContainers (Spec app1) !! i = Some x ->
                 EphemeralContainers (Spec c) !! i = Some x) /\
    list.last (EphemeralContainers (Spec c)) = Some InjectVariant.ec /\
    ecc_Name (ec_Common InjectVariant.ec) = "essential-container-sidecar" /\
    (ecc_Command (ec_Common InjectVariant.ec)
       ++ ecc_Args (ec_Common InjectVariant.ec))%list
      = ["/bin/sh"; "-c"; "kill -INT 1"].
Proof.
  apply (@buildCopied_appends_helper plain 0%nat
           (@Build_State plain [app1]
              {| objects := [app1]; contended := false |} []) app1).
  reflexivity.
Defined.

Section SerializationFailures.
Context `{Platform}.
Import InjectVariant.

(** C8.  [json.Marshal] encodes a pod member by member, and the modified
    copy holds all the content of the pod it was copied from; a failure on
    the pod is therefore a failure on the copy, which is what the first
    hypothesis says of the serializer.  Then every serialization failure
    in [injectEphemeralContainer], that of the pod as it is included, ends
    the run with an error: the error value of the first call is dropped
    where it is made, and the check after the second call returns "error
    creating JSON for debug container" with the serializer's message.  No
    diff is computed and nothing is submitted: the cluster and the output
    are as before. *)
Theorem inject_serialization_failure_surfaced (r : PodReconciler)
    (pod : ptr) (log : Logger) (s : State) (p : Pod) :
  (forall q, snd (json_Marshal q) <> None ->
             snd (json_Marshal (modified q)) <> None) ->
  heap s !! pod = Some p ->
  snd (json_Marshal p) <> None \/ snd (json_Marshal (modified p)) <> None ->
  exists e s',
    injectEphemeralContainer r pod log s =
    Some (Some (Errorf ("error creating JSON for debug container: "
                          ++ Error e)), s') /\
    snd (json_Marshal (modified p)) = Some e /\
    world s' = world s /\ output s' = output s /\
    heap s' !! pod = Some p.
Proof.
  intros Hcontent Hp Hfail.
  assert (Hcopy : snd (json_Marshal (modified p)) <> None).
  { destruct Hfail as [Hfirst|Hsecond]; [exact (Hcontent p Hfirst)|exact Hsecond]. }
  destruct (json_Marshal (modified p)) as [debugJS [e|]] eqn:Hm;
    [|contradiction].
  exists e. eexists. split.
  - exact (inject_marshal_copy_fails r pod log s p debugJS e Hp Hm).
  - cbn [heap world output snd]. repeat split.
    exact (lookup_old _ _ _ _ Hp).
Qed.
End SerializationFailures.

Lemma inject_serialization_failure_surfaced_witness :
  exists e s',
    @InjectVariant.injectEphemeralContainer picky reconciler 0%nat
      {| keysAndValues := [] |}
      (@Build_State picky [Pod_zero]
         {| objects := [Pod_zero]; contended := false |} [])
    = Some (Some (@Errorf picky
                    ("error creating JSON for debug container: "
                       ++ @Error picky e)), s') /\
    snd (@json_Marshal picky (InjectVariant.modified Pod_zero)) = Some e /\
    world s' = {| objects := [Pod_zero]; contended := false |} /\
    output s' = [] /\
    heap s' !! 0%nat = Some Pod_zero.
Proof.
  apply (@inject_serialization_failure_surfaced picky reconciler 0%nat
           {| keysAndValues := [] |}
           (@Build_State picky [Pod_zero]
              {| objects := [Pod_zero]; contended := false |} []) Pod_zero).
  - intros q. cbn. unfold sample_Marshal, rejects_unnamed. cbn.
    destruct (om_Name (Meta q) =? "")%string; simpl; congruence.
  - reflexivity.
  - left. simpl. discriminate.
Defined.

(** ** Properties of the patch model *)

Section MergeProperties.
Import StrategicMerge InjectVariant.

Lemma changed_same {A : Type} `{EqDecision A} (a : A) : changed a a = None.
Proof. unfold changed. destruct (decide (a = a)); [reflexivity|contradiction]. Qed.

Lemma filter_known (l known : list EphemeralContainer) :
  (forall e, e ∈ l -> e ∈ known) ->
  List.filter (fun e => negb (bool_decide (e ∈ known))) l = [].
Proof.
  induction l as [|x l IH]; intros Hin; simpl; [reflexivity|].
  rewrite bool_decide_eq_true_2 by (apply Hin; left). simpl.
  apply IH. intros e He. apply Hin. right. exact He.
Qed.

Lemma merge_by_name_fresh (l : list EphemeralContainer)
    (e : EphemeralContainer) :
  Forall (fun x => name_of x <> name_of e) l ->
  merge_by_name l e = (l ++ [e])%list.
Proof.
  induction 1 as [|x l Hx _ IH]; simpl; [reflexivity|].
  destruct (String.eqb_spec (name_of x) (name_of e)); [contradiction|].
  now rewrite IH.
Qed.

Lemma merge_by_name_last (l : list EphemeralContainer)
    (e : EphemeralContainer) :
  Forall (fun x => name_of x <> name_of e) l ->
  merge_by_name (l ++ [e]) e = (l ++ [e])%list.
Proof.
  induction 1 as [|x l Hx _ IH]; simpl.
  - now rewrite String.eqb_refl.
  - destruct (String.eqb_spec (name_of x) (name_of e)); [contradiction|].
    now rewrite IH.
Qed.

Lemma patch_of_fresh (p : Pod) :
  Forall (fun e => name_of e <> name_of ec) (EphemeralContainers (Spec p)) ->
  patch_of p =
  {| set_Meta := None; set_InitContainers := None; set_Containers := None;
     set_RestartPolicy := None; set_NodeName := None; set_Status := None;
     merge_EphemeralContainers := [ec] |}.
Proof.
  intros Hfresh. unfold patch_of, CreateTwoWayMergePatch, serialize, modified,
    set_EphemeralContainers; cbn.
  rewrite !changed_same. f_equal.
  rewrite List.filter_app, filter_known by auto. simpl.
  rewrite bool_decide_eq_false_2; [reflexivity|].
  intros Hin. rewrite list.Forall_forall in Hfresh.
  exact (Hfresh _ Hin eq_refl).
Qed.

(** C5 (amended).  For a pod none of whose ephemeral containers carries the
    helper's name, applying the patch computed from the representations of
    the pod and of its modified copy to the former yields the latter, and
    applying it once more to the result changes nothing. *)
Theorem patch_round_trip (p : Pod) :
  Forall (fun e => name_of e <> name_of ec) (EphemeralContainers (Spec p)) ->
  apply_patch (patch_of p) (serialize p) = serialize (modified p) /\
  apply_patch (patch_of p) (serialize (modified p)) = serialize (modified p).
Proof.
  intros Hfresh. rewrite (patch_of_fresh p Hfresh).
  unfold apply_patch, serialize, modified, set_EphemeralContainers; cbn.
  rewrite (merge_by_name_fresh _ _ Hfresh), (merge_by_name_last _ _ Hfresh).
  split; reflexivity.
Qed.

Lemma merge_by_name_length (l : list EphemeralContainer)
    (e : EphemeralContainer) :
  Exists (fun x => name_of x = name_of e) l ->
  length (merge_by_name l e) = length l.
Proof.
  induction l as [|x l IH]; intros Hex; [inversion Hex|]. simpl.
  destruct (String.eqb_spec (name_of x) (name_of e)); [reflexivity|].
  simpl. f_equal. apply IH. inversion Hex; [contradiction|assumption].
Qed.

(** The condition on the helper's name cannot be dropped: with an entry of
    that name in the list, the patched representation has as many
    ephemeral containers as the original, one fewer than the copy. *)
Lemma patch_round_trip_needs_fresh_name (p : Pod) :
  Exists (fun e => name_of e = name_of ec) (EphemeralContainers (Spec p)) ->
  apply_patch (patch_of p) (serialize p) <> serialize (modified p).
Proof.
  intros Hex Heq.
  apply (f_equal (fun d => length (doc_EphemeralContainers d))) in Heq.
  revert Heq.
  unfold apply_patch, patch_of, CreateTwoWayMergePatch, serialize, modified,
    set_EphemeralContainers; cbn.
  rewrite List.filter_app, filter_known by auto. simpl.
  rewrite length_app. simpl.
  destruct (bool_decide (ec ∈ EphemeralContainers (Spec p))); simpl.
  - lia.
  - rewrite (merge_by_name_length _ _ Hex). lia.
Qed.

Lemma patch_round_trip_witness :
  apply_patch (patch_of app1) (serialize app1) = serialize (modified app1) /\
  apply_patch (patch_of app1) (serialize (modified app1))
  = serialize (modified app1).
Proof. apply (patch_round_trip app1). constructor. Defined.

(** C5, as stated for every unit, fails: on a pod that already carries the
    helper, the modified copy holds two entries of the helper's name, and
    a merge by name of the patch into the representation of the pod leaves
    one. *)
Lemma patch_round_trip_fails_on_patched_pod :
  apply_patch (patch_of app1_patched) (serialize app1_patched)
  <> serialize (modified app1_patched).
Proof.
  intros Heq.
  apply (f_equal (fun d => length (doc_EphemeralContainers d))) in Heq.
  vm_compute in Heq. discriminate.
Qed.
End MergeProperties.

(** ** Further properties of the extractor and the detector *)

(** X1.  The reason returned belongs to the phase returned: the waiting
    reason in phase "Waiting", the termination reason in phase
    "Terminated", the empty string in the phases "Running" and "unknown",
    whatever the members that the phase does not name hold. *)
Theorem getStateReason_matches_phase (st : ContainerState) :
  getStateReason st =
  if (getState st =? "Waiting")%string
  then from_option csw_Reason "" (Waiting st)
  else if (getState st =? "Terminated")%string
       then from_option cst_Reason "" (Terminated st)
       else "".
Proof.
  unfold getStateReason, getState.
  destruct (Running st), (Waiting st), (Terminated st); reflexivity.
Qed.

(** X2.  The filter never admits two update events in a row: when it
    admits the event from [a] to [b], it rejects every event from [b]. *)
Theorem UpdateFunc_not_twice_in_a_row (a b c : Pod) :
  UpdateFunc {| ObjectOld := a; ObjectNew := b |} = true ->
  UpdateFunc {| ObjectOld := b; ObjectNew := c |} = false.
Proof.
  unfold UpdateFunc; cbn [ObjectOld ObjectNew].
  rewrite !andb_true_iff, !String.eqb_eq. intros [[_ Hb] _].
  rewrite Hb. reflexivity.
Qed.

Lemma UpdateFunc_not_twice_in_a_row_witness :
  UpdateFunc
    {| ObjectOld := app1;
       ObjectNew := mkPod "ns" "app-1" []
                      [mkStatus "main" (mkTerminated "Completed" 0)] |}
  = false.
Proof.
  apply (UpdateFunc_not_twice_in_a_row
           (mkPod "ns" "app-1" [] [mkStatus "main" mkRunning]) app1).
  reflexivity.
Defined.

(** X3.  An update event in which the state extracted for "main" is the
    same in both pods is rejected, whatever else changed. *)
Theorem UpdateFunc_needs_change (e : UpdateEvent) :
  getContainerStatus (ObjectOld e) "main"
  = getContainerStatus (ObjectNew e) "main" ->
  UpdateFunc e = false.
Proof.
  intros Hsame. unfold UpdateFunc; cbv zeta. rewrite Hsame.
  destruct (String.eqb_spec
              (getState (getContainerStatus (ObjectNew e) "main")) "Running")
    as [Hr|Hr]; [rewrite Hr|]; reflexivity.
Qed.

Lemma UpdateFunc_needs_change_witness :
  UpdateFunc
    {| ObjectOld := mkPod "ns" "app-1" [] [mkStatus "main" mkRunning];
       ObjectNew := mkPod "ns" "app-1" [InjectVariant.ec]
                      [mkStatus "main" mkRunning;
                       mkStatus "pool" (mkTerminated "Completed" 0)] |}
  = false.
Proof. apply UpdateFunc_needs_change. reflexivity. Defined.

(** X4.  When no status record of the new pod is named "main", the filter
    rejects the event, whatever the old pod holds. *)
Theorem UpdateFunc_absent_in_new (e : UpdateEvent) :
  Forall (fun s => cs_Name s <> "main")
         (ContainerStatuses (Status (ObjectNew e))) ->
  UpdateFunc e = false.
Proof.
  intros Habs. unfold UpdateFunc; cbv zeta.
  unfold getContainerStatus at 2 3.
  rewrite (getContainerStatus_loop_absent _ _ Habs).
  apply andb_false_intro1, andb_false_intro2. reflexivity.
Qed.

Lemma UpdateFunc_absent_in_new_witness :
  UpdateFunc
    {| ObjectOld := mkPod "ns" "app-1" [] [mkStatus "main" mkRunning];
       ObjectNew := mkPod "ns" "app-1" []
                      [mkStatus "pool" (mkTerminated "Completed" 0)] |}
  = false.
Proof.
  apply UpdateFunc_absent_in_new. repeat constructor. simpl. discriminate.
Defined.

Lemma getContainerStatus_loop_filter (l : list ContainerStatus) (n : string) :
  getContainerStatus_loop
    (List.filter (fun s => (cs_Name s =? n)%string) l) n
  = getContainerStatus_loop l n.
Proof.
  induction l as [|s l IH]; simpl; [reflexivity|].
  destruct (cs_Name s =? n)%string eqn:Hn; simpl; [now rewrite Hn|exact IH].
Qed.

(** X5.  The answer of the filter depends on the status records named
    "main" only: metadata and labels, the specification, the phase of the
    pod, the statuses of init and ephemeral containers and the records of
    the other containers can be dropped from both pods without changing
    it. *)
Theorem UpdateFunc_main_only (o n : Pod) :
  UpdateFunc {| ObjectOld := main_only o; ObjectNew := main_only n |}
  = UpdateFunc {| ObjectOld := o; ObjectNew := n |}.
Proof.
  unfold UpdateFunc, getContainerStatus, main_only; cbn.
  rewrite !getContainerStatus_loop_filter. reflexivity.
Qed.

(** X6.  When the state extracted for "main" from the new pod has its
    [Running] or its [Waiting] member set, the filter rejects the event,
    even if a [Terminated] member with reason "Completed" is set beside it
    or the waiting reason reads "Completed". *)
Theorem UpdateFunc_new_Running_or_Waiting (e : UpdateEvent) :
  Running (getContainerStatus (ObjectNew e) "main") <> None \/
  Waiting (getContainerStatus (ObjectNew e) "main") <> None ->
  UpdateFunc e = false.
Proof.
  intros Hset. unfold UpdateFunc; cbv zeta.
  apply andb_false_intro1, andb_false_intro2.
  unfold getState.
  destruct (Running (getContainerStatus (ObjectNew e) "main")),
           (Waiting (getContainerStatus (ObjectNew e) "main"));
    try reflexivity.
  destruct Hset as [Hn|Hn]; contradiction.
Qed.

Lemma UpdateFunc_new_Running_or_Waiting_witness :
  UpdateFunc
    {| ObjectOld := mkPod "ns" "app-1" [] [mkStatus "main" mkRunning];
       ObjectNew := mkPod "ns" "app-1" []
                      [mkStatus "main" (mkWaiting "Completed")] |}
  = false.
Proof.
  apply UpdateFunc_new_Running_or_Waiting. right. simpl. discriminate.
Defined.

(** ** Further properties of the removal variant *)

Section DeleteRuns.
Context `{Platform}.
Import DeleteVariant.

(** One run of [Reconcile], in terms of the answers of the client. *)
Lemma Reconcile_delete_run (r : PodReconciler) (req : Request) (s : State) :
  Reconcile r req s =
  match client_Get (req_NamespacedName req) (world s) with
  | (inr e, w1) =>
      Some ((Result_zero, if IsNotFound e then None else Some (LibError e)),
            {| heap := (heap s ++ [Pod_zero])%list;
               world := w1;
               output :=
                 ((output s ++ [Stdout (delete_banner req)]) ++
                  [if IsNotFound e
                   then Info (request_kv r req) "Pod not found"
                   else ErrorLine (request_kv r req) (Error e)
                          "Failed to get Pod"])%list |})
  | (inl obj, w1) =>
      Some ((Result_zero, option_map LibError (fst (client_Delete obj w1))),
            {| heap := (heap s ++ [obj])%list;
               world := snd (client_Delete obj w1);
               output :=
                 ((output s ++ [Stdout (delete_banner req)]) ++
                  [match fst (client_Delete obj w1) with
                   | Some e => ErrorLine (request_kv r req) (Error e)
                                 "Failed to delete Pod"
                   | None => Info (request_kv r req)
                               "Pod deleted successfully"
                   end])%list |})
  end.
Proof.
  unfold Reconcile, delete_banner, request_kv. run.
  destruct (client_Get (req_NamespacedName req) (world s)) as [[obj|e] w1].
  - rewrite lookup_fresh, insert_fresh. cbn [heap world output].
    rewrite lookup_fresh. cbn [heap world output].
    destruct (client_Delete obj w1) as [[e|] w2]; reflexivity.
  - destruct (IsNotFound e); reflexivity.
Qed.

(** X8.  [Reconcile] of the removal variant always returns: it never
    dereferences a pointer that designates no object.  The [Result] it
    returns is always the zero one, so the request is queued again exactly
    when the returned error is non-nil. *)
Theorem Reconcile_delete_never_panics (r : PodReconciler) (req : Request)
    (s : State) :
  exists err s',
    Reconcile r req s = Some ((Result_zero, err), s') /\
    (requeues (Result_zero, err) = true <-> err <> None).
Proof.
  rewrite Reconcile_delete_run.
  destruct (client_Get (req_NamespacedName req) (world s)) as [[obj|e] w1].
  - eexists. eexists. split; [reflexivity|].
    destruct (fst (client_Delete obj w1)); simpl; split; congruence.
  - eexists. eexists. split; [reflexivity|].
    destruct (IsNotFound e); simpl; split; congruence.
Qed.

(** X9.  When the read fails with an error that is not a not-found error,
    [Reconcile] logs "Failed to get Pod" and returns that error; no delete
    is attempted, the cluster is left as the read left it. *)
Theorem Reconcile_delete_read_error (r : PodReconciler) (req : Request)
    (s : State) (e : liberror) (w1 : cluster) :
  client_Get (req_NamespacedName req) (world s) = (inr e, w1) ->
  IsNotFound e = false ->
  exists s',
    Reconcile r req s = Some ((Result_zero, Some (LibError e)), s') /\
    world s' = w1 /\
    list.last (output s')
    = Some (ErrorLine (request_kv r req) (Error e) "Failed to get Pod").
Proof.
  intros Hget Hnf. rewrite Reconcile_delete_run, Hget, Hnf.
  eexists. split; [reflexivity|]. cbn [world output].
  split; [reflexivity|apply last_snoc].
Qed.

(** X10.  A run of [Reconcile] allocates one pod object and leaves the
    objects that existed as they were; it appends two lines to the output,
    the banner and one log line, and keeps what was there. *)
Theorem Reconcile_delete_frame (r : PodReconciler) (req : Request)
    (s : State) :
  exists res s' line,
    Reconcile r req s = Some (res, s') /\
    length (heap s') = S (length (heap s)) /\
    (forall q x, heap s !! q = Some x -> heap s' !! q = Some x) /\
    output s' = (output s ++ [Stdout (delete_banner req); line])%list.
Proof.
  rewrite Reconcile_delete_run.
  destruct (client_Get (req_NamespacedName req) (world s)) as [[obj|e] w1];
    eexists; eexists; eexists; (split; [reflexivity|]);
    cbn [heap output];
    (split; [rewrite length_app; simpl; lia|]);
    (split; [intros q x Hq; apply lookup_app_l_Some; exact Hq|]);
    rewrite <- app_assoc; reflexivity.
Qed.

(** X11.  The cluster sees the read and at most one delete, that of the
    object the read returned: after a failed read its state is the one the
    read left, otherwise the one that the delete of that object left. *)
Theorem Reconcile_delete_cluster_effect (r : PodReconciler) (req : Request)
    (s : State) :
  exists res s',
    Reconcile r req s = Some (res, s') /\
    world s' =
    match client_Get (req_NamespacedName req) (world s) with
    | (inr _, w1) => w1
    | (inl obj, w1) => snd (client_Delete obj w1)
    end.
Proof.
  rewrite Reconcile_delete_run.
  destruct (client_Get (req_NamespacedName req) (world s)) as [[obj|e] w1];
    eexists; eexists; split; reflexivity.
Qed.

(** X12.  The retry after a pod vanished between read and delete ends in
    success: when the delete of the first run fails and the read of the
    second run, from the state the first left, answers not-found, the
    second run returns no error and attempts no delete. *)
Theorem Reconcile_delete_retry_converges (r : PodReconciler) (req : Request)
    (s : State) (obj : Pod) (w1 w2 w3 : cluster) (e e' : liberror) :
  client_Get (req_NamespacedName req) (world s) = (inl obj, w1) ->
  client_Delete obj w1 = (Some e, w2) ->
  client_Get (req_NamespacedName req) w2 = (inr e', w3) ->
  IsNotFound e' = true ->
  exists s1 s2,
    Reconcile r req s = Some ((Result_zero, Some (LibError e)), s1) /\
    Reconcile r req s1 = Some ((Result_zero, None), s2) /\
    world s2 = w3.
Proof.
  intros Hget Hdel Hget' Hnf.
  eexists. eexists. split; [|split].
  - rewrite Reconcile_delete_run, Hget, Hdel. reflexivity.
  - rewrite Reconcile_delete_run. cbn [world snd].
    rewrite Hget', Hnf. reflexivity.
  - reflexivity.
Qed.
End DeleteRuns.

Lemma Reconcile_delete_read_error_witness :
  exists s',
    @DeleteVariant.Reconcile offline reconciler app1_request
      (@Build_State offline [] tt [])
    = Some ((Result_zero,
             Some (@LibError offline "context deadline exceeded")), s') /\
    world s' = tt /\
    list.last (output s')
    = Some (ErrorLine [("pod", "ns/app-1")] "context deadline exceeded"
              "Failed to get Pod").
Proof.
  apply (@Reconcile_delete_read_error offline reconciler app1_request
           (@Build_State offline [] tt []) "context deadline exceeded" tt);
    reflexivity.
Defined.

Lemma Reconcile_delete_retry_converges_witness :
  exists s1 s2,
    @DeleteVariant.Reconcile plain reconciler app1_request
      (sample_state (fun _ => false) [app1] true)
    = Some ((Result_zero, Some (@LibError plain (ErrNotFound "app-1"))), s1) /\
    @DeleteVariant.Reconcile plain reconciler app1_request s1
    = Some ((Result_zero, None), s2) /\
    world s2 = {| objects := []; contended := true |}.
Proof.
  apply (@Reconcile_delete_retry_converges plain reconciler app1_request
           (sample_state (fun _ => false) [app1] true) app1
           {| objects := []; contended := true |}
           {| objects := []; contended := true |}
           {| objects := []; contended := true |}
           (ErrNotFound "app-1") (ErrNotFound "app-1")); reflexivity.
Defined.

(** ** Further properties of the injection variant *)

Section InjectRuns.
Context `{Platform}.
Import InjectVariant.

(** One run of [injectEphemeralContainer] on an object with content [p],
    in terms of the answers of the libraries. *)
Lemma inject_run (r : PodReconciler) (pod : ptr) (log : Logger) (s : State)
    (p : Pod) :
  heap s !! pod = Some p ->
  injectEphemeralContainer r pod log s =
  match json_Marshal (modified p) with
  | (_, Some e) =>
      Some (Some (Errorf ("error creating JSON for debug container: "
                            ++ Error e)),
            {| heap := (heap s ++ [modified p])%list;
               world := world s; output := output s |})
  | (debugJS, None) =>
      match CreateTwoWayMergePatch (fst (json_Marshal p)) debugJS p with
      | (_, Some e) =>
          Some (Some (Errorf ("error creating patch to add debug container: "
                                ++ Error e)),
                {| heap := (heap s ++ [modified p])%list;
                   world := world s; output := output s |})
      | (patch, None) =>
          match subresource_Patch "ephemeralcontainers" p
                  StrategicMergePatchType patch (world s) with
          | (inr e, w) =>
              Some (Some (if IsNotFound e
                          then Errorf ("pod not found: "
                                         ++ om_Namespace (Meta p) ++ "/"
                                         ++ om_Name (Meta p))
                          else LibError e),
                    {| heap := (heap s ++ [modified p])%list;
                       world := w; output := output s |})
          | (inl obj, w) =>
              Some (None,
                    {| heap := <[pod := obj]> (heap s ++ [modified p])%list;
                       world := w;
                       output :=
                         (output s ++
                          [Info (keysAndValues log)
                             "Ephemeral container injected successfully"])%list
                    |})
          end
      end
  end.
Proof.
  intros Hp.
  destruct (json_Marshal (modified p)) as [debugJS [e|]] eqn:Hm.
  { exact (inject_marshal_copy_fails r pod log s p debugJS e Hp Hm). }
  destruct (CreateTwoWayMergePatch (fst (json_Marshal p)) debugJS p)
    as [patch [e|]] eqn:Hd.
  { exact (inject_diff_fails r pod log s p debugJS patch e Hp Hm Hd). }
  destruct (subresource_Patch "ephemeralcontainers" p
              StrategicMergePatchType patch (world s)) as [[obj|e] w] eqn:Hs.
  - exact (inject_patch_accepted r pod log s p debugJS patch obj w
             Hp Hm Hd Hs).
  - exact (inject_patch_fails r pod log s p debugJS patch e w Hp Hm Hd Hs).
Qed.

(** X13.  [injectEphemeralContainer] returns exactly when its pointer
    designates an object: with a pointer that designates none it panics,
    with any other it returns, whatever the libraries answer. *)
Theorem inject_returns_iff_valid (r : PodReconciler) (pod : ptr)
    (log : Logger) (s : State) :
  is_Some (injectEphemeralContainer r pod log s) <-> is_Some (heap s !! pod).
Proof.
  split.
  - intros [x Hx]. destruct (heap s !! pod) as [p|] eqn:Hp; [eauto|].
    unfold injectEphemeralContainer in Hx. unfold bind at 1 in Hx.
    unfold load at 1 in Hx. rewrite Hp in Hx. discriminate.
  - intros [p Hp]. rewrite (inject_run r pod log s p Hp).
    destruct (json_Marshal (modified p)) as [debugJS [e|]]; [eauto|].
    destruct (CreateTwoWayMergePatch (fst (json_Marshal p)) debugJS p)
      as [patch [e|]]; [eauto|].
    destruct (subresource_Patch "ephemeralcontainers" p
                StrategicMergePatchType patch (world s)) as [[obj|e] w];
      eauto.
Qed.

(** X14.  A run of [injectEphemeralContainer] allocates one object, the
    copy, and changes no object other than the one its pointer designates;
    it writes one line to the output when it returns nil and none when it
    returns an error. *)
Theorem inject_frame (r : PodReconciler) (pod : ptr) (log : Logger)
    (s : State) (p : Pod) :
  heap s !! pod = Some p ->
  exists err s',
    injectEphemeralContainer r pod log s = Some (err, s') /\
    length (heap s') = S (length (heap s)) /\
    (forall q x, q <> pod -> heap s !! q = Some x -> heap s' !! q = Some x) /\
    heap s' !! length (heap s) = Some (modified p) /\
    output s' =
    (output s ++
     match err with
     | Some _ => []
     | None => [Info (keysAndValues log)
                  "Ephemeral container injected successfully"]
     end)%list.
Proof.
  intros Hp. rewrite (inject_run r pod log s p Hp).
  assert (Hlt : (pod < length (heap s))%nat) by (eapply lookup_lt_Some; eauto).
  destruct (json_Marshal (modified p)) as [debugJS [e|]].
  { eexists; eexists; split; [reflexivity|]; cbn [heap output].
    rewrite length_app, app_nil_r; simpl.
    repeat split; [lia| |apply lookup_fresh].
    intros q x _ Hq; apply lookup_app_l_Some; exact Hq. }
  destruct (CreateTwoWayMergePatch (fst (json_Marshal p)) debugJS p)
    as [patch [e|]].
  { eexists; eexists; split; [reflexivity|]; cbn [heap output].
    rewrite length_app, app_nil_r; simpl.
    repeat split; [lia| |apply lookup_fresh].
    intros q x _ Hq; apply lookup_app_l_Some; exact Hq. }
  destruct (subresource_Patch "ephemeralcontainers" p
              StrategicMergePatchType patch (world s)) as [[obj|e] w].
  - eexists; eexists; split; [reflexivity|]; cbn [heap output].
    rewrite length_insert, length_app; simpl.
    repeat split; [lia| |].
    + intros q x Hne Hq. rewrite list_lookup_insert_ne by congruence.
      apply lookup_app_l_Some; exact Hq.
    + rewrite list_lookup_insert_ne by lia. apply lookup_fresh.
  - eexists; eexists; split; [reflexivity|]; cbn [heap output].
    rewrite length_app, app_nil_r; simpl.
    repeat split; [lia| |apply lookup_fresh].
    intros q x _ Hq; apply lookup_app_l_Some; exact Hq.
Qed.

(** X15.  When the serialization of the copy or the computation of the
    diff fails, [injectEphemeralContainer] returns an error of its own
    making and submits nothing: the cluster, the output and the object it
    was given are as before. *)
Theorem inject_early_failure_submits_nothing (r : PodReconciler) (pod : ptr)
    (log : Logger) (s : State) (p : Pod) :
  heap s !! pod = Some p ->
  snd (json_Marshal (modified p)) <> None \/
  snd (CreateTwoWayMergePatch (fst (json_Marshal p))
         (fst (json_Marshal (modified p))) p) <> None ->
  exists msg s',
    injectEphemeralContainer r pod log s = Some (Some (Errorf msg), s') /\
    world s' = world s /\ output s' = output s /\
    heap s' !! pod = Some p.
Proof.
  intros Hp Hfail. rewrite (inject_run r pod log s p Hp).
  destruct (json_Marshal (modified p)) as [debugJS [e|]].
  { eexists; eexists; split; [reflexivity|]; cbn [heap world output].
    repeat split. exact (lookup_old _ _ _ _ Hp). }
  cbn [fst snd] in Hfail.
  destruct (CreateTwoWayMergePatch (fst (json_Marshal p)) debugJS p)
    as [patch [e|]].
  { eexists; eexists; split; [reflexivity|]; cbn [heap world output].
    repeat split. exact (lookup_old _ _ _ _ Hp). }
  cbn [snd] in Hfail. destruct Hfail; contradiction.
Qed.

(** X16.  Each construction of the copy adds one more ephemeral container
    of the helper's name: the list is not searched for an entry of that
    name first, so a pod that carries the helper gets a copy with two. *)
Theorem buildCopied_counts_helper (pod : ptr) (s : State) (p : Pod) :
  heap s !! pod = Some p ->
  exists copied s' c,
    buildCopied pod s = Some (copied, s') /\
    heap s' !! copied = Some c /\
    helper_count (EphemeralContainers (Spec c))
    = S (helper_count (EphemeralContainers (Spec p))).
Proof.
  intros Hp. rewrite (buildCopied_run pod s p Hp).
  eexists; eexists; eexists. split; [reflexivity|]. cbn [heap].
  split; [apply lookup_fresh|].
  unfold helper_count, modified, set_EphemeralContainers; cbn.
  rewrite List.filter_app, length_app. simpl. lia.
Qed.
End InjectRuns.

Lemma inject_frame_witness :
  exists err s',
    @InjectVariant.injectEphemeralContainer plain reconciler 0%nat
      {| keysAndValues := [] |}
      (@Build_State plain [app1] {| objects := [app1]; contended := false |} [])
    = Some (err, s') /\
    length (heap s') = 2%nat /\
    (forall q x, q <> 0%nat -> [app1] !! q = Some x -> heap s' !! q = Some x) /\
    heap s' !! 1%nat = Some (InjectVariant.modified app1) /\
    output s' =
    ([] ++
     match err with
     | Some _ => []
     | None => [Info [] "Ephemeral container injected successfully"]
     end)%list.
Proof.
  apply (@inject_frame plain reconciler 0%nat {| keysAndValues := [] |}
           (@Build_State plain [app1]
              {| objects := [app1]; contended := false |} []) app1).
  reflexivity.
Defined.

Lemma inject_early_failure_submits_nothing_witness :
  exists msg s',
    @InjectVariant.injectEphemeralContainer refusing reconciler 0%nat
      {| keysAndValues := [] |}
      (@Build_State refusing [app1]
         {| objects := [app1]; contended := false |} [])
    = Some (Some (@Errorf refusing msg), s') /\
    world s' = {| objects := [app1]; contended := false |} /\
    output s' = [] /\
    heap s' !! 0%nat = Some app1.
Proof.
  apply (@inject_early_failure_submits_nothing refusing reconciler 0%nat
           {| keysAndValues := [] |}
           (@Build_State refusing [app1]
              {| objects := [app1]; contended := false |} []) app1).
  - reflexivity.
  - left. simpl. discriminate.
Defined.

Lemma buildCopied_counts_helper_witness :
  exists copied s' c,
    @InjectVariant.buildCopied plain 0%nat
      (@Build_State plain [mkPod "ns" "app-1" [InjectVariant.ec] []]
         {| objects := []; contended := false |} [])
    = Some (copied, s') /\
    heap s' !! copied = Some c /\
    helper_count (EphemeralContainers (Spec c)) = 2%nat.
Proof.
  apply (@buildCopied_counts_helper plain 0%nat
           (@Build_State plain [mkPod "ns" "app-1" [InjectVariant.ec] []]
              {| objects := []; contended := false |} [])
           (mkPod "ns" "app-1" [InjectVariant.ec] [])).
  reflexivity.
Defined.

Section InjectReconcileRuns.
Context `{Platform}.
Import InjectVariant.

(** One run of [Reconcile] of the injection variant, in terms of the answer
    of the read and of the run of [injectEphemeralContainer]. *)
Lemma Reconcile_inject_run (r : PodReconciler) (req : Request) (s : State) :
  Reconcile r req s =
  match client_Get (req_NamespacedName req) (world s) with
  | (inr e, w1) =>
      Some ((Result_zero, if IsNotFound e then None else Some (LibError e)),
            {| heap := (heap s ++ [Pod_zero])%list;
               world := w1;
               output :=
                 ((output s ++ [Stdout (inject_banner req)]) ++
                  [if IsNotFound e
                   then Info (request_kv r req) "Pod not found"
                   else ErrorLine (request_kv r req) (Error e)
                          "Failed to get Pod"])%list |})
  | (inl obj, w1) =>
      match injectEphemeralContainer r (length (heap s))
              (WithValues (Log r) "pod"
                 (NamespacedName_String (req_NamespacedName req)))
              {| heap := (heap s ++ [obj])%list; world := w1;
                 output := (output s ++ [Stdout (inject_banner req)])%list |}
      with
      | Some (res, s2) =>
          Some ((Result_zero, res),
                {| heap := heap s2; world := world s2;
                   output :=
                     (output s2 ++
                      [match res with
                       | Some err =>
                           ErrorLine (request_kv r req) (error_text err)
                             "Failed to inject ephemeral container into pod"
                       | None => Info (request_kv r req)
                                   "Pod killed successfully"
                       end])%list |})
      | None => None
      end
  end.
Proof.
  unfold Reconcile, inject_banner, request_kv. run.
  destruct (client_Get (req_NamespacedName req) (world s)) as [[obj|e] w1].
  - rewrite lookup_fresh, insert_fresh. cbn [heap world output].
    destruct (injectEphemeralContainer _ _ _ _) as [[[err|] s2]|];
      reflexivity.
  - destruct (IsNotFound e); reflexivity.
Qed.

Ltac inject_cases obj w1 :=
  destruct (json_Marshal (modified obj)) as [debugJS [e|]];
  [|destruct (CreateTwoWayMergePatch (fst (json_Marshal obj)) debugJS obj)
      as [patch [e|]];
    [|destruct (subresource_Patch "ephemeralcontainers" obj
                  StrategicMergePatchType patch w1) as [[obj'|e] w2]]].

(** X17.  [Reconcile] of the injection variant always returns: the pointer
    it hands to [injectEphemeralContainer] designates the object just
    read.  The [Result] is always the zero one, so the request is queued
    again exactly when the returned error is non-nil. *)
Theorem Reconcile_inject_never_panics (r : PodReconciler) (req : Request)
    (s : State) :
  exists err s',
    Reconcile r req s = Some ((Result_zero, err), s') /\
    (requeues (Result_zero, err) = true <-> err <> None).
Proof.
  rewrite Reconcile_inject_run.
  destruct (client_Get (req_NamespacedName req) (world s)) as [[obj|e] w1].
  - rewrite (inject_run _ _ _ _ obj) by apply lookup_fresh.
    cbn [heap world output].
    inject_cases obj w1;
      eexists; eexists; (split; [reflexivity|]); simpl; split; congruence.
  - eexists. eexists. split; [reflexivity|].
    destruct (IsNotFound e); simpl; split; congruence.
Qed.

(** X18.  An error of the patch submission that is not a not-found error,
    a conflict for instance, is returned by [Reconcile] as the library
    handed it over, and the request is queued again. *)
Theorem Reconcile_inject_patch_error_passed_on (r : PodReconciler)
    (req : Request) (s : State) (obj : Pod) (w1 w2 : cluster)
    (debugJS patch : bytes) (e : liberror) :
  client_Get (req_NamespacedName req) (world s) = (inl obj, w1) ->
  json_Marshal (modified obj) = (debugJS, None) ->
  CreateTwoWayMergePatch (fst (json_Marshal obj)) debugJS obj
    = (patch, None) ->
  subresource_Patch "ephemeralcontainers" obj StrategicMergePatchType patch w1
    = (inr e, w2) ->
  IsNotFound e = false ->
  exists s',
    Reconcile r req s = Some ((Result_zero, Some (LibError e)), s') /\
    world s' = w2 /\
    list.last (output s')
    = Some (ErrorLine (request_kv r req) (Error e)
              "Failed to inject ephemeral container into pod") /\
    requeues (Result_zero, Some (LibError e)) = true.
Proof.
  intros Hget Hm Hd Hs Hnf. rewrite Reconcile_inject_run, Hget.
  rewrite (inject_run _ _ _ _ obj) by apply lookup_fresh.
  cbn [heap world output]. rewrite Hm, Hd, Hs, Hnf.
  eexists. split; [reflexivity|]. cbn [world output].
  split; [reflexivity|]. split; [apply last_snoc|reflexivity].
Qed.

(** X19.  When the read, the serialization of the copy, the diff and
    the submission succeed, [Reconcile] returns no error; the
    cluster is in the state the submission of the computed patch to the
    "ephemeralcontainers" subresource left, and the output gains the
    banner and the two success lines, in this order. *)
Theorem Reconcile_inject_success (r : PodReconciler) (req : Request)
    (s : State) (obj obj' : Pod) (w1 w2 : cluster) (debugJS patch : bytes) :
  client_Get (req_NamespacedName req) (world s) = (inl obj, w1) ->
  json_Marshal (modified obj) = (debugJS, None) ->
  CreateTwoWayMergePatch (fst (json_Marshal obj)) debugJS obj
    = (patch, None) ->
  subresource_Patch "ephemeralcontainers" obj StrategicMergePatchType patch w1
    = (inl obj', w2) ->
  exists s',
    Reconcile r req s = Some ((Result_zero, None), s') /\
    world s' = w2 /\
    output s' =
    (output s ++
     [Stdout (inject_banner req);
      Info (request_kv r req) "Ephemeral container injected successfully";
      Info (request_kv r req) "Pod killed successfully"])%list /\
    requeues (Result_zero, @None error) = false.
Proof.
  intros Hget Hm Hd Hs. rewrite Reconcile_inject_run, Hget.
  rewrite (inject_run _ _ _ _ obj) by apply lookup_fresh.
  cbn [heap world output]. rewrite Hm, Hd, Hs.
  eexists. split; [reflexivity|]. cbn [world output].
  split; [reflexivity|]. split; [|reflexivity].
  rewrite <- !app_assoc. reflexivity.
Qed.

(** X20.  A run of [Reconcile] of the injection variant leaves the objects
    that existed as they were, and appends to the output the banner
    followed by one or two log lines, keeping what was there. *)
Theorem Reconcile_inject_frame (r : PodReconciler) (req : Request)
    (s : State) :
  exists res s' lines,
    Reconcile r req s = Some (res, s') /\
    (forall q x, heap s !! q = Some x -> heap s' !! q = Some x) /\
    output s' = (output s ++ Stdout (inject_banner req) :: lines)%list /\
    (1 <= length lines <= 2)%nat.
Proof.
  rewrite Reconcile_inject_run.
  destruct (client_Get (req_NamespacedName req) (world s)) as [[obj|e] w1].
  - rewrite (inject_run _ _ _ _ obj) by apply lookup_fresh.
    cbn [heap world output].
    inject_cases obj w1;
      eexists; eexists; eexists; (split; [reflexivity|]);
      cbn [heap output]; (split; [|split]);
      try (rewrite <- !app_assoc; simpl; reflexivity);
      try (simpl; lia);
      intros q x Hq;
      try (rewrite list_lookup_insert_ne
             by (apply lookup_lt_Some in Hq; lia));
      apply lookup_app_l_Some, lookup_app_l_Some; exact Hq.
  - eexists; eexists; eexists; (split; [reflexivity|]);
      cbn [heap output]; (split; [|split]).
    + intros q x Hq. apply lookup_app_l_Some; exact Hq.
    + rewrite <- app_assoc. reflexivity.
    + simpl; lia.
Qed.
End InjectReconcileRuns.

Section FailedRead.
Context `{Platform}.

(** X21.  On a failed read both variants behave alike: they return the
    same result (success for a not-found error, the error otherwise),
    leave the same cluster and the same heap, and log the same line; only
    the banner differs. *)
Theorem Reconcile_variants_agree_on_failed_read (r : PodReconciler)
    (req : Request) (s : State) (e : liberror) (w1 : cluster) :
  client_Get (req_NamespacedName req) (world s) = (inr e, w1) ->
  exists res sd si,
    DeleteVariant.Reconcile r req s = Some (res, sd) /\
    InjectVariant.Reconcile r req s = Some (res, si) /\
    res = (Result_zero, if IsNotFound e then None else Some (LibError e)) /\
    world sd = w1 /\ world si = w1 /\
    heap sd = heap si /\
    list.last (output sd) = list.last (output si).
Proof.
  intros Hget.
  rewrite Reconcile_delete_run, Reconcile_inject_run, Hget.
  eexists; eexists; eexists. split; [reflexivity|]. split; [reflexivity|].
  cbn [heap world output]. repeat split.
  now rewrite !last_snoc.
Qed.
End FailedRead.

Lemma Reconcile_inject_patch_error_passed_on_witness :
  exists s',
    @InjectVariant.Reconcile conflicting reconciler app1_request
      (@Build_State conflicting []
         {| objects := [app1]; contended := false |} [])
    = Some ((Result_zero, Some (@LibError conflicting (ErrConflict "app-1"))),
            s') /\
    world s' = {| objects := [app1]; contended := false |} /\
    list.last (output s')
    = Some (ErrorLine [("pod", "ns/app-1")] "pods app-1 has been modified"
              "Failed to inject ephemeral container into pod") /\
    @requeues conflicting
      (Result_zero, Some (@LibError conflicting (ErrConflict "app-1")))
    = true.
Proof.
  apply (@Reconcile_inject_patch_error_passed_on conflicting reconciler
           app1_request
           (@Build_State conflicting []
              {| objects := [app1]; contended := false |} [])
           app1
           {| objects := [app1]; contended := false |}
           {| objects := [app1]; contended := false |}
           "ns/app-1:essential-container-sidecar"
           "ns/app-1:=>ns/app-1:essential-container-sidecar"
           (ErrConflict "app-1")); reflexivity.
Defined.

Lemma Reconcile_inject_success_witness :
  exists s',
    @InjectVariant.Reconcile plain reconciler app1_request
      (sample_state (fun _ => false) [app1] false)
    = Some ((Result_zero, None), s') /\
    world s' = {| objects := [app1]; contended := false |} /\
    output s' =
    [Stdout (inject_banner app1_request);
     Info [("pod", "ns/app-1")] "Ephemeral container injected successfully";
     Info [("pod", "ns/app-1")] "Pod killed successfully"] /\
    @requeues plain (Result_zero, @None (@error plain)) = false.
Proof.
  apply (@Reconcile_inject_success plain reconciler app1_request
           (sample_state (fun _ => false) [app1] false) app1 app1
           {| objects := [app1]; contended := false |}
           {| objects := [app1]; contended := false |}
           "ns/app-1:essential-container-sidecar"
           "ns/app-1:=>ns/app-1:essential-container-sidecar");
    reflexivity.
Defined.

Lemma Reconcile_variants_agree_on_failed_read_witness :
  exists res sd si,
    @DeleteVariant.Reconcile offline reconciler app1_request
      (@Build_State offline [] tt []) = Some (res, sd) /\
    @InjectVariant.Reconcile offline reconciler app1_request
      (@Build_State offline [] tt []) = Some (res, si) /\
    res = (Result_zero, Some (@LibError offline "context deadline exceeded")) /\
    world sd = tt /\ world si = tt /\
    heap sd = heap si /\
    list.last (output sd) = list.last (output si).
Proof.
  apply (@Reconcile_variants_agree_on_failed_read offline reconciler
           app1_request (@Build_State offline [] tt [])
           "context deadline exceeded" tt).
  reflexivity.
Defined.
